(** * putemg_download/download.py: record selection and concurrent fetch

    A shallow embedding of [download.py] and the properties of its
    record parser, filters, artifact expansion and fetch step.

    Text is modelled as [string], a sequence of 8-bit characters read as
    the code points U+0000..U+00FF; the character classes of the
    interpreter's [re] module are given on that range.  Input and output
    calls are assumed to succeed: the manifest request returns the
    listing, every artifact request returns a body, directory creation
    and file writes do not fail.

    A function of the program is a computation over the local state (the
    directories, the files and the log of what was printed, requested and
    written) that falls through, returns or raises.  The coroutines that
    [download] hands to [asyncio.gather] run in two stretches each, up to
    the request and from the response on; the order in which the loop
    resumes them is a parameter of the run, and the properties hold for
    every order. *)

From Stdlib Require Import String Ascii List Bool Arith Lia.
From stdpp Require Import base gmap sets list strings sorting.

Local Open Scope string_scope.
Local Open Scope list_scope.
Set Warnings "-clear-no-such-hyp".
#[local] Arguments String.append !_ _ / : simpl nomatch.
#[local] Arguments Ascii.eqb !_ !_ / : simpl nomatch.

(** ** Strings *)

(** The longest start of [s] made of characters of [p], and what is
    left of [s] after it. *)
Fixpoint takew (p : ascii -> bool) (s : string) : string :=
  match s with
  | String c s' => if p c then String c (takew p s') else ""
  | EmptyString => ""
  end.

Fixpoint dropw (p : ascii -> bool) (s : string) : string :=
  match s with
  | String c s' => if p c then dropw p s' else s
  | EmptyString => ""
  end.

Fixpoint string_forallb (p : ascii -> bool) (s : string) : bool :=
  match s with
  | String c s' => p c && string_forallb p s'
  | EmptyString => true
  end.

(** [m in t] on two strings: [m] occurs in [t] as a contiguous run. *)
Fixpoint str_contains (t m : string) : bool :=
  String.prefix m t ||
  match t with
  | String _ t' => str_contains t' m
  | EmptyString => false
  end.

(** The quotation mark, which the messages of the program print around
    the offending value. *)
Definition dquote : string := String "034"%char "".

(** ** The fragment of the [re] pattern language the program uses *)

Module Re.

Inductive regex :=
| Bol                              (* ^ without MULTILINE *)
| Eol                              (* $ without MULTILINE *)
| Lit (c : ascii)
| Cls (p : ascii -> bool)          (* \w, \d, [0-9] *)
| Cat (r1 r2 : regex)
| Rep (n : nat) (r : regex)        (* r{n} *)
| Star (p : ascii -> bool)         (* greedy p* over a class *)
| Grp (name : string) (r : regex). (* (?P<name>r) *)

(** Named groups of a match, latest capture first. *)
Definition groups := list (string * string).

(** A continuation receives the text just matched, the rest of the
    subject, the offset reached and the groups captured so far. *)
Definition cont := string -> string -> nat -> groups -> option groups.

(** The longest run is tried first and given back one character at a
    time while what follows fails. *)
Fixpoint star (p : ascii -> bool) (s : string) (i : nat) (gs : groups)
    (k : cont) : option groups :=
  match s with
  | String c s' =>
      if p c then
        match star p s' (S i) gs (fun m => k (String c m)) with
        | Some g => Some g
        | None => k "" s i gs
        end
      else k "" s i gs
  | EmptyString => k "" s i gs
  end.

Definition newline : ascii := "010"%char.

Fixpoint run (r : regex) (s : string) (i : nat) (gs : groups) (k : cont)
    {struct r} : option groups :=
  match r with
  | Bol => if Nat.eqb i 0 then k "" s i gs else None
  | Eol =>
      match s with
      | EmptyString => k "" s i gs
      | String c EmptyString =>
          if Ascii.eqb c newline then k "" s i gs else None
      | _ => None
      end
  | Lit c =>
      match s with
      | String c' s' =>
          if Ascii.eqb c c' then k (String c' "") s' (S i) gs else None
      | EmptyString => None
      end
  | Cls p =>
      match s with
      | String c' s' => if p c' then k (String c' "") s' (S i) gs else None
      | EmptyString => None
      end
  | Cat r1 r2 =>
      run r1 s i gs
        (fun m1 s1 i1 g1 =>
           run r2 s1 i1 g1 (fun m2 => k (m1 +:+ m2)))
  | Rep n r1 =>
      (fix rep (n : nat) (k : cont) (s : string) (i : nat) (gs : groups)
         : option groups :=
         match n with
         | O => k "" s i gs
         | S n' =>
             run r1 s i gs
               (fun m1 s1 i1 g1 =>
                  rep n' (fun m2 => k (m1 +:+ m2)) s1 i1 g1)
         end) n k s i gs
  | Star p => star p s i gs k
  | Grp name r1 =>
      run r1 s i gs (fun m s1 i1 g1 => k m s1 i1 ((name, m) :: g1))
  end.

(** The end of the pattern: the match is found. *)
Definition accept : cont := fun _ _ _ gs => Some gs.

(** [re.match]: the pattern is tried at the start of the subject only. *)
Definition rmatch (r : regex) (s : string) : option groups :=
  run r s 0 [] accept.

(** [re.search]: the pattern is tried at every offset, leftmost first. *)
Fixpoint search_from (r : regex) (s : string) (i : nat) : option groups :=
  match run r s i [] accept with
  | Some g => Some g
  | None =>
      match s with
      | String _ s' => search_from r s' (S i)
      | EmptyString => None
      end
  end.

Definition search (r : regex) (s : string) : option groups :=
  search_from r s 0.

(** [m.group(name)]; [None] stands for the IndexError of a name the
    pattern does not define. *)
Fixpoint group (gs : groups) (name : string) : option string :=
  match gs with
  | (n, v) :: gs' => if String.eqb n name then Some v else group gs' name
  | [] => None
  end.

Definition in_range (lo hi : nat) (c : ascii) : bool :=
  (lo <=? nat_of_ascii c)%nat && (nat_of_ascii c <=? hi)%nat.

(** [\d] and [[0-9]]: below U+0100 the only decimal digits are 0-9. *)
Definition is_digit (c : ascii) : bool := in_range 48 57 c.

(** [\w] on a str pattern: alphanumeric code points and the underscore. *)
Definition is_word (c : ascii) : bool :=
  is_digit c || in_range 65 90 c || in_range 97 122 c
  || Ascii.eqb c "_"
  || Ascii.eqb c "170" || Ascii.eqb c "178" || Ascii.eqb c "179"
  || Ascii.eqb c "181" || Ascii.eqb c "185" || Ascii.eqb c "186"
  || in_range 188 190 c || in_range 192 214 c || in_range 216 246 c
  || in_range 248 255 c.

End Re.

#[local] Arguments Re.is_digit : simpl never.
#[local] Arguments Re.is_word : simpl never.

Infix ":+:" := Re.Cat (at level 60, right associativity).

(** \d{n} and the dash between the groups. *)
Definition digits (n : nat) : Re.regex := Re.Rep n (Re.Cls Re.is_digit).
Definition dash : Re.regex := Re.Lit "-".

(** ** parse_record *)

(** The 5-tuple [(type, id, trajectory, date, time)]. *)
Record record := Rec {
  r_type : string;
  r_id : string;
  r_trajectory : string;
  r_date : string;
  r_time : string
}.

(** The exceptions of the program: the warning of [parse_record] with
    its arguments, and the error of an unknown group name. *)
Inductive exn :=
| Warning (args : list string)
| IndexError.

Inductive result (A : Type) :=
| Ok (a : A)
| Raise (e : exn).
Arguments Ok {A} a.
Arguments Raise {A} e.

(** The pattern of [parse_record], anchored at the start only: the
    groups type and trajectory are runs of word characters, the groups
    id, date and time are digits 2, 4-2-2 and 2-2-2-3, and single dashes
    separate the five groups. *)
Definition experiment_name_regexp : Re.regex :=
  Re.Bol :+: Re.Grp "type" (Re.Star Re.is_word) :+: dash :+:
  Re.Grp "id" (digits 2) :+: dash :+:
  Re.Grp "trajectory" (Re.Star Re.is_word) :+: dash :+:
  Re.Grp "date" (digits 4 :+: dash :+: digits 2 :+: dash :+: digits 2) :+: dash :+:
  Re.Grp "time"
    (digits 2 :+: dash :+: digits 2 :+: dash :+: digits 2 :+: dash :+: digits 3).

(** tags.group(name) *)
Definition tag (tags : Re.groups) (name : string) : result string :=
  match Re.group tags name with
  | Some v => Ok v
  | None => Raise IndexError
  end.

Definition parse_record (name : string) : result record :=
  match Re.search experiment_name_regexp name with
  | None => Raise (Warning ["Wrong record"; name])
  | Some tags =>
      match tag tags "type", tag tags "id", tag tags "trajectory",
            tag tags "date", tag tags "time" with
      | Ok ty, Ok id, Ok tr, Ok d, Ok t => Ok (Rec ty id tr d t)
      | _, _, _, _, _ => Raise IndexError
      end
  end.

(** The canonical name: the five fields joined by dashes, as
    [download] formats them for a file name. *)
Definition format_record (r : record) : string :=
  r_type r +:+ "-" +:+ r_id r +:+ "-" +:+ r_trajectory r +:+ "-" +:+
  r_date r +:+ "-" +:+ r_time r.


(** A string follows a shape when every [d] of the shape stands over a
    decimal digit and every other character of the shape over itself. *)
Fixpoint has_shape (shape s : string) : bool :=
  match shape, s with
  | EmptyString, EmptyString => true
  | String x shape', String c s' =>
      (if Ascii.eqb x "d" then Re.is_digit c else Ascii.eqb x c)
      && has_shape shape' s'
  | _, _ => false
  end.

(** The record grammar type-id-trajectory-YYYY-MM-DD-HH-MM-SS-mmm on the
    five fields. *)
Definition well_formed (r : record) : bool :=
  string_forallb Re.is_word (r_type r)
  && has_shape "dd" (r_id r)
  && string_forallb Re.is_word (r_trajectory r)
  && has_shape "dddd-dd-dd" (r_date r)
  && has_shape "dd-dd-dd-ddd" (r_time r).

(** ** The world of a run *)

Definition BASE_URL : string :=
  "https://chmura.put.poznan.pl/s/G285gnQVuCnfQAx/download?path=%2F".

Definition VIDEO_1080p_DIR : string := "Video-1080p".
Definition VIDEO_576p_DIR : string := "Video-576p".
Definition DEPTH_DIR : string := "Depth".
Definition DATA_HDF5_DIR : string := "Data-HDF5".
Definition DATA_CSV_DIR : string := "Data-CSV".

(** What a function hands back: [None], the table that
    [create_dataframe_from_records_meta] builds over the columns type,
    id, trajectory, date and time, or a plain list of tuples. *)
Inductive value :=
| PyNone
| DataFrame (rows : list record)
| PyList (rows : list record).

(** What a run does that can be seen from outside, oldest first. *)
Inductive event :=
| Print (line : string)
| PrintSet (s : gset string)
| PrintList (l : list string)
| Usage
| UrlOpen (url : string)
| MakeDirs (dir : string)
| Get (url : string)
| WriteFile (path : string) (data : string).

(** The local directory tree and the log of the run. *)
Record state := State {
  dirs : gset string;
  files : gmap string string;
  log : list event
}.

(** The file share: the lines of records.txt as the program splits
    them, and the body served at each address. *)
Record remote := Remote {
  records_txt : list string;
  payload : string -> string
}.

(** A statement falls through to the next one, returns from the
    function, or raises. *)
Inductive outcome (A : Type) :=
| Next (a : A)
| Return (v : value)
| Throw (e : exn).
Arguments Next {A} a.
Arguments Return {A} v.
Arguments Throw {A} e.

Definition prog (A : Type) : Type := state -> outcome A * state.

#[global] Instance prog_ret : MRet prog := fun A a st => (Next a, st).

#[global] Instance prog_bind : MBind prog := fun A B f m st =>
  match m st with
  | (Next a, st') => f a st'
  | (Return v, st') => (Return v, st')
  | (Throw e, st') => (Throw e, st')
  end.

(** One more event in the log. *)
Definition emit (e : event) : prog unit := fun st =>
  (Next tt, State (dirs st) (files st) (log st ++ [e])).

(** return v *)
Definition ret {A : Type} (v : value) : prog A := fun st => (Return v, st).

(** A call that may raise. *)

Definition lift {A : Type} (r : result A) : prog A := fun st =>
  match r with
  | Ok a => (Next a, st)
  | Raise e => (Throw e, st)
  end.

(** An [if] without [else]. *)
Definition when (b : bool) (m : prog unit) : prog unit :=
  if b then m else mret tt.

(** A [for] loop whose body may return or raise. *)
Fixpoint for_each {A : Type} (l : list A) (body : A -> prog unit) : prog unit :=
  match l with
  | [] => mret tt
  | x :: l' => body x ;; for_each l' body
  end.

(** A [for] loop that updates local variables. *)
Fixpoint for_fold {A S : Type} (l : list A) (body : A -> S -> prog S) (s : S)
    : prog S :=
  match l with
  | [] => mret s
  | x :: l' => s' ← body x s; for_fold l' body s'
  end.

Definition print (line : string) : prog unit := emit (Print line).
Definition usage : prog unit := emit Usage.

(** os.makedirs(dir, exist_ok=True) *)
Definition makedirs (dir : string) : prog unit := fun st =>
  (Next tt, State (dirs st ∪ {[dir]}) (files st) (log st ++ [MakeDirs dir])).

(** urllib.request.urlopen(url).read().decode().splitlines() *)
Definition urlopen_lines (net : remote) (url : string) : prog (list string) :=
  emit (UrlOpen url) ;; mret (records_txt net).

(** os.path.isfile *)
Definition isfile (path : string) (st : state) : bool :=
  bool_decide (is_Some (files st !! path)).

(** [not l] on a list. *)
Definition is_nil {A : Type} (l : list A) : bool :=
  match l with [] => true | _ => false end.

(** ** fetch_data *)

(** The arguments of one call of [fetch_data]. *)
Record task := Task {
  base_url : string;
  data_dir : string;
  record_name : string;
  file_type : string;
  overwrite_existing : bool
}.

(** base_url + data_dir + "&files=" + record + "." + file_type, and
    data_dir + "/" + record + "." + file_type. *)
Definition url_of (t : task) : string :=
  base_url t +:+ data_dir t +:+ "&files=" +:+ record_name t +:+ "." +:+ file_type t.

Definition file_path_of (t : task) : string :=
  data_dir t +:+ "/" +:+ record_name t +:+ "." +:+ file_type t.

(** A coroutine that has not run yet, one that waits for its response,
    and one that has returned. *)
Inductive status := Created | Waiting | Finished.

(** From the call to the first suspension: the existing file ends the
    call at once, otherwise the request is sent. *)
Definition fetch_data_start (t : task) (st : state) : status * state :=
  if negb (overwrite_existing t) && isfile (file_path_of t) st then
    (Finished, st)
  else
    (Waiting,
     State (dirs st) (files st)
       (log st ++ [Print ("Fetching " +:+ file_path_of t); Get (url_of t)])).

(** From the response to the end: the body is stored. *)
Definition fetch_data_finish (net : remote) (t : task) (st : state)
    : status * state :=
  let data := payload net (url_of t) in
  (Finished,
   State (dirs st) (<[file_path_of t := data]> (files st))
     (log st ++ [Print ("Storing " +:+ file_path_of t);
                 WriteFile (file_path_of t) data])).

(** ** The event loop under asyncio.gather *)

Abbreviation pool := (list (task * status)).

(** The loop resumes the coroutine at index [i] for one stretch. *)
Definition resume (net : remote) (i : nat) (c : pool * state) : pool * state :=
  match fst c !! i with
  | Some (t, Created) =>
      let '(s, st) := fetch_data_start t (snd c) in (<[i := (t, s)]> (fst c), st)
  | Some (t, Waiting) =>
      let '(s, st) := fetch_data_finish net t (snd c) in (<[i := (t, s)]> (fst c), st)
  | _ => c
  end.

Definition run_schedule (net : remote) (schedule : list nat) (c : pool * state)
    : pool * state :=
  fold_left (fun c i => resume net i c) schedule c.

(** [await asyncio.gather( *tasks)]: the coroutines are resumed in the
    order of [schedule], an order the loop is free to choose, and then
    in the order of their creation until each has returned. *)
Definition gather (net : remote) (schedule : list nat) (tasks : list task)
    (st : state) : pool * state :=
  let n := length tasks in
  run_schedule net (schedule ++ seq 0 n ++ seq 0 n)
    (map (fun t => (t, Created)) tasks, st).

(** ** download *)

Definition supported_experiment_types : list string :=
  ["emg_gestures"; "emg_force"].

Definition supported_media_types : list string :=
  ["data-csv"; "data-hdf5"; "depth"; "video-1080p"; "video-576p"].

(** e in ("emg_gestures", "emg_force") *)
Definition experiment_type_ok (e : string) : bool :=
  bool_decide (e ∈ supported_experiment_types).

(** any(m in t for t in (...)) *)
Definition media_type_ok (m : string) : bool :=
  existsb (fun t => str_contains t m) supported_media_types.

(** The pattern ^[0-9]{2}$ of the ID check. *)
Definition id_regexp : Re.regex := Re.Bol :+: digits 2 :+: Re.Eol.

Definition id_ok (id : string) : bool :=
  bool_decide (is_Some (Re.rmatch id_regexp id)).

Definition quoted (s : string) : string := dquote +:+ s +:+ dquote.

(** The order of [list.sort] on strings: by code points. *)
Definition string_le (a b : string) : Prop := String.leb a b = true.

#[global] Instance string_le_dec (a b : string) : Decision (string_le a b).
Proof. unfold string_le. apply _. Defined.

(** The two loops over the requested types; [early] is what the
    function returns when it gives up. *)
Definition check_experiment_types (early : value) (experiment_types : list string)
    : prog unit :=
  for_each experiment_types (fun e =>
    if negb (experiment_type_ok e) then
      print ("Invalid experiment type " +:+ quoted e) ;; usage ;; ret early
    else mret tt).

Definition check_media_types (early : value) (media_types : list string)
    : prog unit :=
  for_each media_types (fun m =>
    if negb (media_type_ok m) then
      print ("Invalid media type " +:+ quoted m) ;; usage ;; ret early
    else mret tt).

(** The loop over the manifest: every line is parsed, the tuples and
    the set of their IDs are collected. *)
Definition read_records (records_available : list string)
    : prog (list record * gset string) :=
  for_fold records_available (fun r '(records, ids) =>
    rec ← lift (parse_record r);
    mret ((records ++ [rec])%list, ids ∪ {[r_id rec]})) ([], ∅).

(** The loop over the requested IDs. *)
Definition check_ids (early : value) (ids : gset string) (data_ids : list string)
    : prog (gset string) :=
  for_fold data_ids (fun id ids_requested =>
    if negb (id_ok id) then
      print ("Invalid id " +:+ quoted id) ;; usage ;; ret early
    else if negb (bool_decide (id ∈ ids)) then
      print ("ID " +:+ quoted id +:+ " not available") ;; ret early
    else mret (ids_requested ∪ {[id]})) ∅.

(** ids = list(ids); ids.sort() *)
Definition sorted_list (ids : gset string) : list string :=
  merge_sort string_le (elements ids).

(** The tasks created for one selected record. *)
Definition record_tasks (media_types : gset string) (r : record) : list task :=
  let record := format_record r in
  ((if bool_decide ("data-csv" ∈ media_types)
   then [Task BASE_URL DATA_CSV_DIR record "zip" false] else []) ++
  (if bool_decide ("data-hdf5" ∈ media_types)
   then [Task BASE_URL DATA_HDF5_DIR record "hdf5" false] else []) ++
  (if bool_decide ("depth" ∈ media_types)
      && negb (String.eqb (r_type r) "emg_force")
   then [Task BASE_URL DEPTH_DIR record "zip" false] else []) ++
  (if bool_decide ("video-1080p" ∈ media_types)
   then [Task BASE_URL VIDEO_1080p_DIR record "mp4" false] else []) ++
  (if bool_decide ("video-576p" ∈ media_types)
   then [Task BASE_URL VIDEO_576p_DIR record "mp4" false] else []))%list.

(** r[0] in experiment_types and r[1] in ids *)
Definition selected (experiment_types : gset string) (ids : list string)
    (r : record) : bool :=
  bool_decide (r_type r ∈ experiment_types) && bool_decide (r_id r ∈ ids).

(** The loop over the records that creates the tasks. *)
Definition create_tasks (experiment_types media_types : gset string)
    (ids : list string) (records : list record) : list task :=
  flat_map (fun r =>
    if selected experiment_types ids r then record_tasks media_types r else [])
    records.

(** [download] up to the point where it awaits its tasks. *)
Definition download_body (net : remote)
    (experiment_types media_types : list string)
    (data_ids : option (list string)) : prog (list task) :=
  let data_ids := default [] data_ids in
  if is_nil experiment_types || is_nil media_types then
    usage ;; ret PyNone
  else
    check_experiment_types PyNone experiment_types ;;
    let experiment_types : gset string := list_to_set experiment_types in
    check_media_types PyNone media_types ;;
    let media_types : gset string := list_to_set media_types in
    emit (PrintSet experiment_types) ;;
    emit (PrintSet media_types) ;;
    records_available ← urlopen_lines net (BASE_URL +:+ "&files=records.txt");
    '(records, ids) ← read_records records_available;
    ids ← (if is_nil data_ids then mret ids
           else ids_requested ← check_ids PyNone ids data_ids;
                mret (ids ∩ ids_requested));
    let ids := sorted_list ids in
    emit (PrintList ids) ;;
    when (bool_decide ("data-csv" ∈ media_types)) (makedirs DATA_CSV_DIR) ;;
    when (bool_decide ("data-hdf5" ∈ media_types)) (makedirs DATA_HDF5_DIR) ;;
    when (bool_decide ("depth" ∈ media_types)) (makedirs DEPTH_DIR) ;;
    when (bool_decide ("video-1080p" ∈ media_types)) (makedirs VIDEO_1080p_DIR) ;;
    when (bool_decide ("video-576p" ∈ media_types)) (makedirs VIDEO_576p_DIR) ;;
    mret (create_tasks experiment_types media_types ids records).

(** A whole call of [download]: what it returns or raises, the pool of
    its tasks and the state it leaves. *)
Definition download (net : remote) (schedule : list nat)
    (experiment_types media_types : list string)
    (data_ids : option (list string)) (st : state)
    : result value * pool * state :=
  match download_body net experiment_types media_types data_ids st with
  | (Next tasks, st') =>
      let '(p, st'') := gather net schedule tasks st' in (Ok PyNone, p, st'')
  | (Return v, st') => (Ok v, [], st')
  | (Throw e, st') => (Raise e, [], st')
  end.

(** ** get_records_dataframe *)

Definition create_dataframe_from_records_meta (records_meta : list record)
    : value :=
  DataFrame records_meta.

(** The body of [get_records_dataframe]; on a refused ID it returns
    [records_meta] itself. *)
Definition get_records_dataframe_body (net : remote)
    (experiment_types media_types : list string)
    (data_ids : option (list string)) : prog value :=
  let data_ids := default [] data_ids in
  let records_meta : list record := [] in
  if is_nil experiment_types || is_nil media_types then
    usage ;; ret (create_dataframe_from_records_meta records_meta)
  else
    check_experiment_types (create_dataframe_from_records_meta records_meta)
      experiment_types ;;
    let experiment_types : gset string := list_to_set experiment_types in
    check_media_types (create_dataframe_from_records_meta records_meta)
      media_types ;;
    records_available ← urlopen_lines net (BASE_URL +:+ "&files=records.txt");
    '(records, ids) ← read_records records_available;
    ids ← (if is_nil data_ids then mret ids
           else ids_requested ← check_ids (PyList records_meta) ids data_ids;
                mret (ids ∩ ids_requested));
    let ids := sorted_list ids in
    let records_meta :=
      List.filter (selected experiment_types ids) records in
    ret (create_dataframe_from_records_meta records_meta).

Definition get_records_dataframe (net : remote)
    (experiment_types media_types : list string)
    (data_ids : option (list string)) (st : state) : result value * state :=
  match get_records_dataframe_body net experiment_types media_types data_ids st with
  | (Next v, st') => (Ok v, st')
  | (Return v, st') => (Ok v, st')
  | (Throw e, st') => (Raise e, st')
  end.

(** ** The words of the specification *)

(** The parsed records of a manifest: every line through the parser,
    the first refusal ending it. *)
Fixpoint parse_lines (lines : list string) : result (list record) :=
  match lines with
  | [] => Ok []
  | l :: ls =>
      match parse_record l with
      | Ok r =>
          match parse_lines ls with
          | Ok rs => Ok (r :: rs)
          | Raise e => Raise e
          end
      | Raise e => Raise e
      end
  end.

(** The participant IDs seen in the manifest. *)
Definition observed_ids (records : list record) : gset string :=
  list_to_set (map r_id records).

(** The effective ID set: observed and requested IDs intersected when
    IDs are requested, every observed ID otherwise. *)
Definition effective_ids (observed : gset string) (requested : list string)
    : gset string :=
  if is_nil requested then observed else observed ∩ list_to_set requested.

(** The matched record set. *)
Definition matched (experiment_types : list string) (effective : gset string)
    (records : list record) : list record :=
  List.filter
    (fun r => bool_decide (r_type r ∈ experiment_types)
              && bool_decide (r_id r ∈ effective)) records.

(** The table of media types: directory and extension. *)
Definition directory (m : string) : string :=
  if String.eqb m "data-csv" then "Data-CSV"
  else if String.eqb m "data-hdf5" then "Data-HDF5"
  else if String.eqb m "depth" then "Depth"
  else if String.eqb m "video-1080p" then "Video-1080p"
  else if String.eqb m "video-576p" then "Video-576p"
  else "".

Definition extension (m : string) : string :=
  if String.eqb m "data-csv" then "zip"
  else if String.eqb m "data-hdf5" then "hdf5"
  else if String.eqb m "depth" then "zip"
  else if String.eqb m "video-1080p" then "mp4"
  else if String.eqb m "video-576p" then "mp4"
  else "".

(** Depth is not captured in the force experiments. *)
Definition applicable (m : string) (r : record) : bool :=
  negb (String.eqb m "depth" && String.eqb (r_type r) "emg_force").

(** [m] occurs in [t]. *)
Definition substring_of (m t : string) : Prop :=
  exists a b, t = a +:+ m +:+ b.

(** The line starts with a name of the record grammar. *)
Definition starts_with_name (line : string) : Prop :=
  exists r rest, well_formed r = true /\ line = format_record r +:+ rest.

(** The line is a name of the record grammar. *)
Definition is_name (line : string) : Prop :=
  exists r, well_formed r = true /\ line = format_record r.

Definition manifest_url : string := BASE_URL +:+ "&files=records.txt".

(** The experiment types and media types get past their checks. *)
Definition request_ok (experiment_types media_types : list string) : bool :=
  negb (is_nil experiment_types) && negb (is_nil media_types)
  && forallb experiment_type_ok experiment_types
  && forallb media_type_ok media_types.

(** The directories of the requested media types, in the order of the
    table. *)
Definition requested_dirs (media_types : gset string) : list string :=
  map directory
    (List.filter (fun m => bool_decide (m ∈ media_types)) supported_media_types).

(** The state after more events. *)
Definition say (st : state) (es : list event) : state :=
  State (dirs st) (files st) (log st ++ es).

(** Requests to the file share, and among them those for artifacts. *)
Definition is_request (e : event) : bool :=
  match e with
  | UrlOpen _ | Get _ => true
  | _ => false
  end.

Definition is_get (e : event) : bool :=
  match e with
  | Get _ => true
  | _ => false
  end.

(** The two checks of the ID loop. *)
Definition id_accepted (ids : gset string) (id : string) : bool :=
  id_ok id && bool_decide (id ∈ ids).

(** What the ID loop prints on the ID that ends it. *)
Definition id_refusal (id : string) : list event :=
  if negb (id_ok id) then [Print ("Invalid id " +:+ quoted id); Usage]
  else [Print ("ID " +:+ quoted id +:+ " not available")].

(** Events of the fetch step. *)
Definition is_fetch_event (e : event) : bool :=
  match e with
  | Print _ | Get _ | WriteFile _ _ => true
  | _ => false
  end.

(** The call ends at once on an existing file. *)
Definition skips (st : state) (t : task) : Prop :=
  overwrite_existing t = false /\ is_Some (files st !! file_path_of t).

(** Every task of the pool ends at once and none waits for a response. *)
Definition settled (st : state) (p : pool) : Prop :=
  Forall (fun ts => skips st (fst ts) /\ snd ts <> Waiting) p.

(** The coroutine at index [i] has returned. *)
Definition returned (p : pool) (i : nat) : Prop :=
  exists t, p !! i = Some (t, Finished).

(** How far a coroutine has come. *)
Definition progress (s : status) : nat :=
  match s with
  | Created => 0
  | Waiting => 1
  | Finished => 2
  end.

(** The artifact of a media type for a record: the call of [fetch_data]
    with the directory and the extension of the table. *)
Definition artifact (m : string) (r : record) : task :=
  Task BASE_URL (directory m) (format_record r) (extension m) false.

(** Output on the terminal: messages, the usage text, printed sets and
    lists. *)
Definition is_print (e : event) : bool :=
  match e with
  | Print _ | PrintSet _ | PrintList _ | Usage => true
  | _ => false
  end.

(** Apart from what they print, the events are nothing at all or the
    one request of the manifest. *)
Definition quiet (es : list event) : Prop :=
  List.filter (fun e => negb (is_print e)) es = []
  \/ List.filter (fun e => negb (is_print e)) es = [UrlOpen manifest_url].

(** An event of the coroutine of one of the tasks: its two messages,
    its request and the write of the body served at its address. *)
Definition task_event (net : remote) (tasks : list task) (e : event) : Prop :=
  exists t, t ∈ tasks
    /\ (e = Print ("Fetching " +:+ file_path_of t)
        \/ e = Get (url_of t)
        \/ e = Print ("Storing " +:+ file_path_of t)
        \/ e = WriteFile (file_path_of t) (payload net (url_of t))).

(** What holds of the pool and of the state all along a call of
    [gather] over [tasks] that starts in [st0]: the pool keeps its tasks,
    the directories stay, the log gains events of the tasks only, a
    coroutine that has returned has its local file, no file goes away,
    and a file is as it was or holds the body served to one of the tasks
    that write to it. *)
Definition loop_invariant (net : remote) (tasks : list task) (st0 : state)
    (c : pool * state) : Prop :=
  map fst (fst c) = tasks
  /\ dirs (snd c) = dirs st0
  /\ (exists es, log (snd c) = log st0 ++ es
                 /\ Forall (task_event net tasks) es)
  /\ (forall j t, fst c !! j = Some (t, Finished) ->
                  is_Some (files (snd c) !! file_path_of t))
  /\ (forall path, is_Some (files st0 !! path) ->
                   is_Some (files (snd c) !! path))
  /\ (forall path,
        files (snd c) !! path = files st0 !! path
        \/ exists t, t ∈ tasks /\ file_path_of t = path
                     /\ files (snd c) !! path = Some (payload net (url_of t))).

(** All along a call of [gather] whose tasks may not overwrite: a file
    that was there holds what it held, and a coroutine that waits for a
    response had no local file at the start. *)
Definition keeps_existing (st0 : state) (c : pool * state) : Prop :=
  (forall path d, files st0 !! path = Some d -> files (snd c) !! path = Some d)
  /\ (forall j t, fst c !! j = Some (t, Waiting) ->
                  files st0 !! file_path_of t = None).


(** ** Facts on strings *)

Lemma append_assoc (a b c : string) : (a +:+ b) +:+ c = a +:+ (b +:+ c).
Proof. induction a as [|x a IH]; simpl; [reflexivity | f_equal; exact IH]. Qed.

Lemma append_empty_r (a : string) : a +:+ "" = a.
Proof. induction a as [|x a IH]; simpl; [reflexivity | f_equal; exact IH]. Qed.

Lemma append_cancel_l (a b c : string) : a +:+ b = a +:+ c -> b = c.
Proof. induction a as [|x a IH]; simpl; intros H; [exact H | injection H; auto]. Qed.

Lemma takew_dropw p s : takew p s +:+ dropw p s = s.
Proof.
  induction s as [|c s IH]; simpl; [reflexivity|].
  destruct (p c); simpl; [f_equal; exact IH | reflexivity].
Qed.

Lemma takew_forallb p s : string_forallb p (takew p s) = true.
Proof.
  induction s as [|c s IH]; simpl; [reflexivity|].
  destruct (p c) eqn:E; simpl; [now rewrite E | reflexivity].
Qed.

Lemma takew_app p a c s :
  string_forallb p a = true -> p c = false ->
  takew p (a +:+ String c s) = a.
Proof.
  induction a as [|x a IH]; simpl; intros Ha Hc.
  - now rewrite Hc.
  - apply andb_prop in Ha as [Hx Ha]. rewrite Hx. now rewrite IH.
Qed.

Lemma dropw_app p a c s :
  string_forallb p a = true -> p c = false ->
  dropw p (a +:+ String c s) = String c s.
Proof.
  induction a as [|x a IH]; simpl; intros Ha Hc.
  - now rewrite Hc.
  - apply andb_prop in Ha as [Hx Ha]. rewrite Hx. now apply IH.
Qed.

(** ** Facts on the matcher *)

Lemma word_not_dash c : Re.is_word c = true -> Ascii.eqb "-" c = false.
Proof.
  intros H. destruct (Ascii.eqb_spec "-" c) as [<-|]; [discriminate H | reflexivity].
Qed.

(** A greedy run over a class gives nothing back when what follows
    cannot start with a character of the class. *)
Lemma star_greedy p s i gs (k : Re.cont) :
  (forall m c s' j g, p c = true -> k m (String c s') j g = None) ->
  Re.star p s i gs k =
  k (takew p s) (dropw p s) (String.length (takew p s) + i) gs.
Proof.
  revert i k. induction s as [|c s IH]; intros i k Hk; simpl; [reflexivity|].
  destruct (p c) eqn:E; [|reflexivity].
  rewrite IH by (intros; now apply Hk). simpl.
  rewrite Nat.add_succ_r.
  destruct (k _ _ _ _) eqn:Ek; [reflexivity|].
  now apply Hk.
Qed.

(** The anchor fails at every offset but the first, so that searching
    an anchored pattern is matching it at the start. *)
Lemma search_from_bol r s i : Re.search_from (Re.Bol :+: r) s (S i) = None.
Proof.
  revert i. induction s as [|c s IH]; intros i; simpl; [reflexivity | apply IH].
Qed.

Lemma search_bol r s : Re.search (Re.Bol :+: r) s = Re.rmatch (Re.Bol :+: r) s.
Proof.
  unfold Re.search, Re.rmatch. destruct s as [|c s]; simpl.
  - now destruct (Re.run r _ _ _ _).
  - destruct (Re.run r _ _ _ _); [reflexivity | apply search_from_bol].
Qed.


Lemma has_shape_digit sh s :
  has_shape (String "d" sh) s = true ->
  exists c s', s = String c s' /\ Re.is_digit c = true /\ has_shape sh s' = true.
Proof.
  destruct s as [|c s]; simpl; [discriminate|].
  intros H. apply andb_prop in H as [Hc H]. eauto.
Qed.

Lemma has_shape_dash sh s :
  has_shape (String "-" sh) s = true ->
  exists s', s = String "-" s' /\ has_shape sh s' = true.
Proof.
  destruct s as [|c s]; simpl; [discriminate|].
  intros H. apply andb_prop in H as [Hc H].
  apply Ascii.eqb_eq in Hc as <-. eauto.
Qed.

Lemma has_shape_nil s : has_shape "" s = true -> s = "".
Proof. destruct s; [reflexivity | discriminate]. Qed.

(** Opens [has_shape] over a literal shape into the characters of the
    string and the fact on each. *)
Ltac open_shape H :=
  repeat first
    [ apply has_shape_digit in H as (? & ? & -> & ? & H)
    | apply has_shape_dash in H as (? & -> & H) ];
  apply has_shape_nil in H as ->.

(** The checks on a few values. *)
Example id_ok_values :
  id_ok "03" = true /\ id_ok "3" = false /\ id_ok "003" = false
  /\ id_ok "0a" = false /\ id_ok ("03" +:+ String Re.newline "") = true.
Proof. vm_compute. auto. Qed.

Example media_type_ok_values :
  media_type_ok "depth" = true /\ media_type_ok "csv" = true
  /\ media_type_ok "" = true /\ media_type_ok "video-720p" = false
  /\ media_type_ok "Depth" = false.
Proof. vm_compute. auto. Qed.

Example parse_record_values :
  parse_record "emg_force-07-sit-2020-02-02-08-30-00-500"
  = Ok (Rec "emg_force" "07" "sit" "2020-02-02" "08-30-00-500")
  /\ parse_record "-07--2020-02-02-08-30-00-500"
     = Ok (Rec "" "07" "" "2020-02-02" "08-30-00-500")
  /\ parse_record "emg_force-07-2020-02-02-08-30-00-500"
     = Raise (Warning ["Wrong record"; "emg_force-07-2020-02-02-08-30-00-500"])
  /\ parse_record " emg_force-07-sit-2020-02-02-08-30-00-500"
     = Raise (Warning ["Wrong record";
                       " emg_force-07-sit-2020-02-02-08-30-00-500"])
  /\ parse_record "" = Raise (Warning ["Wrong record"; ""]).
Proof. vm_compute. auto 6. Qed.


Ltac star_step :=
  rewrite star_greedy
    by (intros ? ? ? ? ? Hw; simpl; now rewrite (word_not_dash _ Hw)).


Ltac use_digits :=
  repeat match goal with
  | H : Re.is_digit _ = true |- _ => rewrite H; clear H
  end.

(** Every string that starts with a canonical name parses into the
    fields of that name. *)
Lemma parse_record_prefix r rest :
  well_formed r = true -> parse_record (format_record r +:+ rest) = Ok r.
Proof.
  destruct r as [ty id tr d t]. unfold well_formed, format_record.
  cbn [r_type r_id r_trajectory r_date r_time]. intros H.
  apply andb_prop in H as [H Ht]. apply andb_prop in H as [H Hd].
  apply andb_prop in H as [H Htr]. apply andb_prop in H as [Hty Hid].
  open_shape Hid. open_shape Hd. open_shape Ht.
  unfold parse_record, experiment_name_regexp. rewrite search_bol.
  unfold Re.rmatch. rewrite !append_assoc.
  simpl. star_step.
  rewrite takew_app, dropw_app by (assumption || reflexivity).
  simpl. use_digits. star_step.
  rewrite takew_app, dropw_app by (assumption || reflexivity).
  simpl. use_digits. reflexivity.
Qed.

Ltac fail_right := solve [right; reflexivity].

Ltac eat_dash s :=
  let c := fresh "c" in
  destruct s as [|c s]; simpl; [fail_right|];
  destruct (Ascii.eqb_spec "-" c) as [<-|]; [|fail_right].

Ltac eat_digit s :=
  let c := fresh "c" in
  let Hc := fresh "Hc" in
  destruct s as [|c s]; simpl; [fail_right|];
  destruct (Re.is_digit c) eqn:Hc; [|fail_right].

(** A string either starts with a canonical name, and parses into its
    fields, or is refused with the warning; nothing else happens. *)
Lemma parse_record_cases name :
  (exists r rest, well_formed r = true /\ name = format_record r +:+ rest
                  /\ parse_record name = Ok r)
  \/ parse_record name = Raise (Warning ["Wrong record"; name]).
Proof.
  unfold parse_record, experiment_name_regexp. rewrite search_bol.
  unfold Re.rmatch. simpl. star_step.
  pose proof (takew_dropw Re.is_word name) as En.
  pose proof (takew_forallb Re.is_word name) as Hty.
  set (ty := takew Re.is_word name) in *.
  set (s := dropw Re.is_word name) in *. clearbody ty s.
  eat_dash s. eat_digit s. eat_digit s. eat_dash s. star_step.
  pose proof (takew_dropw Re.is_word s) as Es.
  pose proof (takew_forallb Re.is_word s) as Htr.
  set (tr := takew Re.is_word s) in *.
  set (s' := dropw Re.is_word s) in *. clearbody tr s'.
  eat_dash s'.
  eat_digit s'. eat_digit s'. eat_digit s'. eat_digit s'. eat_dash s'.
  eat_digit s'. eat_digit s'. eat_dash s'.
  eat_digit s'. eat_digit s'. eat_dash s'.
  eat_digit s'. eat_digit s'. eat_dash s'.
  eat_digit s'. eat_digit s'. eat_dash s'.
  eat_digit s'. eat_digit s'. eat_dash s'.
  eat_digit s'. eat_digit s'. eat_digit s'.
  left. eexists (Rec _ _ _ _ _), s'. split; [|split; [|reflexivity]].
  - unfold well_formed. cbn [r_type r_id r_trajectory r_date r_time].
    rewrite Hty, Htr. simpl. use_digits. reflexivity.
  - unfold format_record. cbn [r_type r_id r_trajectory r_date r_time].
    rewrite <- En, <- Es. rewrite !append_assoc. reflexivity.
Qed.


(** ** Facts on loops and statements *)

Lemma first_failure {A : Type} (ok : A -> bool) (l : list A) :
  forallb ok l = false ->
  exists good x rest,
    l = (good ++ x :: rest)%list /\ forallb ok good = true /\ ok x = false.
Proof.
  induction l as [|y l IH]; simpl; [discriminate|].
  destruct (ok y) eqn:Ey; simpl.
  - intros H. destruct (IH H) as (good & x & rest & -> & Hg & Hx).
    exists (y :: good), x, rest. simpl. rewrite Ey. auto.
  - intros _. exists [], y, l. auto.
Qed.

Lemma for_each_pass {A : Type} (ok : A -> bool) (stop : A -> prog unit) l st :
  forallb ok l = true ->
  for_each l (fun x => if negb (ok x) then stop x else mret tt) st = (Next tt, st).
Proof.
  induction l as [|x l IH]; simpl; [reflexivity|].
  intros H. apply andb_prop in H as [Hx Hl].
  unfold mbind, prog_bind. rewrite Hx. simpl. now apply IH.
Qed.

Lemma for_each_fail {A : Type} (ok : A -> bool) (stop : A -> prog unit)
    good x rest st v st' :
  forallb ok good = true -> ok x = false -> stop x st = (Return v, st') ->
  for_each (good ++ x :: rest) (fun x => if negb (ok x) then stop x else mret tt) st
  = (Return v, st').
Proof.
  intros Hg Hx Hs. induction good as [|y good IH]; simpl.
  - unfold mbind, prog_bind. rewrite Hx. simpl. now rewrite Hs.
  - simpl in Hg. apply andb_prop in Hg as [Hy Hg].
    unfold mbind, prog_bind. rewrite Hy. simpl. now apply IH.
Qed.

Lemma check_experiment_types_pass early l st :
  forallb experiment_type_ok l = true ->
  check_experiment_types early l st = (Next tt, st).
Proof. apply for_each_pass. Qed.

Lemma check_experiment_types_fail early good e rest st :
  forallb experiment_type_ok good = true -> experiment_type_ok e = false ->
  check_experiment_types early (good ++ e :: rest) st
  = (Return early,
     say st [Print ("Invalid experiment type " +:+ quoted e); Usage]).
Proof.
  intros Hg He. unfold check_experiment_types.
  apply for_each_fail; [assumption | assumption |].
  unfold mbind, prog_bind, print, usage, emit, ret, say. cbn [dirs files log].
  now rewrite <- app_assoc.
Qed.

Lemma check_media_types_pass early l st :
  forallb media_type_ok l = true ->
  check_media_types early l st = (Next tt, st).
Proof. apply for_each_pass. Qed.

Lemma check_media_types_fail early good m rest st :
  forallb media_type_ok good = true -> media_type_ok m = false ->
  check_media_types early (good ++ m :: rest) st
  = (Return early, say st [Print ("Invalid media type " +:+ quoted m); Usage]).
Proof.
  intros Hg He. unfold check_media_types.
  apply for_each_fail; [assumption | assumption |].
  unfold mbind, prog_bind, print, usage, emit, ret, say. cbn [dirs files log].
  now rewrite <- app_assoc.
Qed.

Lemma observed_ids_cons r rs :
  observed_ids (r :: rs) = {[r_id r]} ∪ observed_ids rs.
Proof. reflexivity. Qed.

Lemma read_records_from lines acc ids st records :
  parse_lines lines = Ok records ->
  for_fold lines (fun r '(records, ids) =>
    rec ← lift (parse_record r);
    mret ((records ++ [rec])%list, ids ∪ {[r_id rec]})) (acc, ids) st
  = (Next ((acc ++ records)%list, ids ∪ observed_ids records), st).
Proof.
  revert acc ids records. induction lines as [|l lines IH]; intros acc ids records; simpl.
  - intros E. injection E as <-. rewrite app_nil_r.
    replace (ids ∪ observed_ids []) with ids by (unfold observed_ids; set_solver).
    reflexivity.
  - destruct (parse_record l) as [r|e] eqn:El; [|discriminate].
    destruct (parse_lines lines) as [rs|e] eqn:Els; [|discriminate].
    intros E. injection E as <-. unfold mbind at 1, prog_bind at 1.
    unfold mbind at 1, prog_bind at 1. unfold lift. cbn.
    rewrite (IH _ _ rs eq_refl). rewrite <- app_assoc.
    fold (observed_ids rs).
    replace (ids ∪ {[r_id r]} ∪ observed_ids rs)
      with (ids ∪ ({[r_id r]} ∪ observed_ids rs)) by set_solver.
    reflexivity.
Qed.

Lemma read_records_ok lines st records :
  parse_lines lines = Ok records ->
  read_records lines st = (Next (records, observed_ids records), st).
Proof.
  intros H. unfold read_records. rewrite (read_records_from _ _ _ _ _ H).
  simpl. replace (∅ ∪ observed_ids records) with (observed_ids records) by set_solver.
  reflexivity.
Qed.

Lemma check_ids_from early ids l (acc : gset string) st :
  forallb (id_accepted ids) l = true ->
  for_fold l (fun id ids_requested =>
    if negb (id_ok id) then
      print ("Invalid id " +:+ quoted id) ;; usage ;; ret early
    else if negb (bool_decide (id ∈ ids)) then
      print ("ID " +:+ quoted id +:+ " not available") ;; ret early
    else mret (ids_requested ∪ {[id]})) acc st
  = (Next (acc ∪ list_to_set l), st).
Proof.
  revert acc. induction l as [|id l IH]; intros acc; simpl.
  - intros _. replace (acc ∪ ∅) with acc by set_solver. reflexivity.
  - intros E. apply andb_prop in E as [Eid El]. unfold id_accepted in Eid.
    apply andb_prop in Eid as [E1 E2].
    unfold mbind at 1, prog_bind at 1. rewrite E1, E2. simpl.
    rewrite (IH _ El).
    replace (acc ∪ {[id]} ∪ list_to_set l) with (acc ∪ ({[id]} ∪ list_to_set l))
      by set_solver.
    reflexivity.
Qed.

Lemma check_ids_pass early ids l st :
  forallb (id_accepted ids) l = true ->
  check_ids early ids l st = (Next (list_to_set l), st).
Proof.
  intros E. unfold check_ids. rewrite (check_ids_from _ _ _ _ _ E).
  replace (∅ ∪ list_to_set l) with (list_to_set l : gset string) by set_solver.
  reflexivity.
Qed.

Lemma check_ids_stop early ids good id rest (acc : gset string) st :
  forallb (id_accepted ids) good = true -> id_accepted ids id = false ->
  for_fold (good ++ id :: rest) (fun id ids_requested =>
    if negb (id_ok id) then
      print ("Invalid id " +:+ quoted id) ;; usage ;; ret early
    else if negb (bool_decide (id ∈ ids)) then
      print ("ID " +:+ quoted id +:+ " not available") ;; ret early
    else mret (ids_requested ∪ {[id]})) acc st
  = (Return early, say st (id_refusal id)).
Proof.
  intros Eg Eid. revert acc. induction good as [|x good IH]; intros acc; simpl.
  - unfold mbind at 1, prog_bind at 1. unfold id_refusal, id_accepted in *.
    destruct (id_ok id); simpl in *.
    + rewrite Eid. reflexivity.
    + unfold mbind, prog_bind, print, usage, emit, ret, say. cbn [dirs files log].
      now rewrite <- app_assoc.
  - simpl in Eg. apply andb_prop in Eg as [Ex Eg]. unfold id_accepted in Ex.
    apply andb_prop in Ex as [E1 E2].
    unfold mbind at 1, prog_bind at 1. rewrite E1, E2. simpl. now apply IH.
Qed.

Lemma check_ids_fail early ids good id rest st :
  forallb (id_accepted ids) good = true -> id_accepted ids id = false ->
  check_ids early ids (good ++ id :: rest) st
  = (Return early, say st (id_refusal id)).
Proof. intros. now apply check_ids_stop. Qed.

Lemma request_ok_inv ets mts :
  request_ok ets mts = true ->
  is_nil ets = false /\ is_nil mts = false
  /\ forallb experiment_type_ok ets = true /\ forallb media_type_ok mts = true.
Proof.
  unfold request_ok. intros H.
  apply andb_prop in H as [H H4]. apply andb_prop in H as [H H3].
  apply andb_prop in H as [H1 H2].
  apply negb_true_iff in H1, H2. auto.
Qed.

Lemma makedirs_block {A : Type} (mts : gset string) (k : prog A) st :
  (when (bool_decide ("data-csv" ∈ mts)) (makedirs DATA_CSV_DIR) ;;
   when (bool_decide ("data-hdf5" ∈ mts)) (makedirs DATA_HDF5_DIR) ;;
   when (bool_decide ("depth" ∈ mts)) (makedirs DEPTH_DIR) ;;
   when (bool_decide ("video-1080p" ∈ mts)) (makedirs VIDEO_1080p_DIR) ;;
   when (bool_decide ("video-576p" ∈ mts)) (makedirs VIDEO_576p_DIR) ;;
   k) st
  = k (State (dirs st ∪ list_to_set (requested_dirs mts)) (files st)
         (log st ++ map MakeDirs (requested_dirs mts))).
Proof.
  assert (Heq : forall d d' f (l l' : list event),
             d = d' -> l = l' -> k (State d f l) = k (State d' f l'))
    by (intros; subst; reflexivity).
  destruct st as [d f l]. unfold requested_dirs. simpl.
  unfold mbind, prog_bind, when, makedirs, mret, prog_ret.
  destruct (bool_decide ("data-csv" ∈ mts));
  destruct (bool_decide ("data-hdf5" ∈ mts));
  destruct (bool_decide ("depth" ∈ mts));
  destruct (bool_decide ("video-1080p" ∈ mts));
  destruct (bool_decide ("video-576p" ∈ mts));
  cbn [dirs files log map directory]; rewrite <- ?app_assoc; simpl;
  (apply Heq; [set_solver | now rewrite ?app_nil_r]).
Qed.

Lemma elem_of_sorted_list (ids : gset string) (x : string) :
  x ∈ sorted_list ids <-> x ∈ ids.
Proof.
  unfold sorted_list. rewrite merge_sort_Permutation. apply elem_of_elements.
Qed.

Lemma selected_spec (ets : list string) (eff : gset string) r :
  selected (list_to_set ets) (sorted_list eff) r
  = bool_decide (r_type r ∈ ets) && bool_decide (r_id r ∈ eff).
Proof.
  unfold selected. f_equal; apply bool_decide_ext.
  - apply elem_of_list_to_set.
  - apply elem_of_sorted_list.
Qed.

Lemma filter_selected ets eff records :
  List.filter (selected (list_to_set ets) (sorted_list eff)) records
  = matched ets eff records.
Proof.
  unfold matched. induction records as [|r rs IH]; simpl; [reflexivity|].
  rewrite selected_spec, IH. reflexivity.
Qed.

Lemma create_tasks_matched ets (mts : gset string) eff records :
  create_tasks (list_to_set ets) mts (sorted_list eff) records
  = flat_map (record_tasks mts) (matched ets eff records).
Proof.
  unfold create_tasks, matched. induction records as [|r rs IH]; simpl; [reflexivity|].
  rewrite selected_spec, IH.
  destruct (bool_decide (r_type r ∈ ets) && bool_decide (r_id r ∈ eff)); reflexivity.
Qed.

(** The part of the run that both entry points share leaves the
    effective ID set. *)
Lemma ids_block early (observed : gset string) data_ids st :
  forallb (id_accepted observed) data_ids = true ->
  (if is_nil data_ids then mret observed
   else ids_requested ← check_ids early observed data_ids;
        mret (observed ∩ ids_requested)) st
  = (Next (effective_ids observed data_ids), st).
Proof.
  intros E. unfold effective_ids. destruct data_ids as [|id l]; [reflexivity|].
  cbn [is_nil]. unfold mbind, prog_bind. now rewrite check_ids_pass.
Qed.

Lemma download_body_ok net ets mts data_ids st records :
  request_ok ets mts = true ->
  parse_lines (records_txt net) = Ok records ->
  forallb (id_accepted (observed_ids records)) (default [] data_ids) = true ->
  let eff := effective_ids (observed_ids records) (default [] data_ids) in
  download_body net ets mts data_ids st
  = (Next (flat_map (record_tasks (list_to_set mts)) (matched ets eff records)),
     State (dirs st ∪ list_to_set (requested_dirs (list_to_set mts))) (files st)
       (log st ++ [PrintSet (list_to_set ets); PrintSet (list_to_set mts);
                   UrlOpen manifest_url; PrintList (sorted_list eff)]
               ++ map MakeDirs (requested_dirs (list_to_set mts)))).
Proof.
  intros Hreq Hparse Hids eff.
  apply request_ok_inv in Hreq as (H1 & H2 & H3 & H4).
  unfold download_body. rewrite H1, H2. cbn [orb].
  unfold mbind at 1, prog_bind at 1. rewrite check_experiment_types_pass by assumption.
  unfold mbind at 1, prog_bind at 1. rewrite check_media_types_pass by assumption.
  unfold mbind at 1, prog_bind at 1. cbn [emit].
  unfold mbind at 1, prog_bind at 1. cbn [emit].
  unfold mbind at 1, prog_bind at 1. unfold urlopen_lines.
  unfold mbind at 1, prog_bind at 1. cbn [emit]. cbn [mret prog_ret].
  unfold mbind at 1, prog_bind at 1. rewrite (read_records_ok _ _ _ Hparse).
  unfold mbind at 1, prog_bind at 1. rewrite (ids_block _ _ _ _ Hids).
  fold eff.
  unfold mbind at 1, prog_bind at 1. cbn [emit]. cbn [dirs files log].
  rewrite makedirs_block. cbn [dirs files log mret prog_ret].
  rewrite create_tasks_matched. rewrite <- !app_assoc. reflexivity.
Qed.

Ltac step := unfold mbind at 1, prog_bind at 1.

Lemma read_records_stop good bad rest acc (ids : gset string) st rs e :
  parse_lines good = Ok rs -> parse_record bad = Raise e ->
  for_fold (good ++ bad :: rest) (fun r '(records, ids) =>
    rec ← lift (parse_record r);
    mret ((records ++ [rec])%list, ids ∪ {[r_id rec]})) (acc, ids) st
  = (Throw e, st).
Proof.
  revert acc ids rs. induction good as [|l good IH]; intros acc ids rs; simpl.
  - intros _ Eb. step. step. rewrite Eb. reflexivity.
  - destruct (parse_record l) as [r|e'] eqn:El; [|discriminate].
    destruct (parse_lines good) as [rs'|e'] eqn:Eg; [|discriminate].
    intros _ Eb. step. step. cbn. now apply (IH _ _ rs').
Qed.

Lemma read_records_fail good bad rest st rs e :
  parse_lines good = Ok rs -> parse_record bad = Raise e ->
  read_records (good ++ bad :: rest) st = (Throw e, st).
Proof. intros. unfold read_records. now apply read_records_stop with rs. Qed.

(** The first line of a manifest that does not parse. *)
Lemma parse_lines_first_failure lines e :
  parse_lines lines = Raise e ->
  exists good bad rest rs,
    lines = (good ++ bad :: rest)%list /\ parse_lines good = Ok rs
    /\ parse_record bad = Raise e.
Proof.
  induction lines as [|l lines IH]; simpl; [discriminate|].
  destruct (parse_record l) as [r|e'] eqn:El.
  - destruct (parse_lines lines) as [rs|e'] eqn:Els; [discriminate|].
    intros E. injection E as <-.
    destruct (IH eq_refl) as (good & bad & rest & rs & -> & Hg & Hb).
    exists (l :: good), bad, rest, (r :: rs). simpl. rewrite El, Hg. auto.
  - intros E. injection E as <-. exists [], l, lines, []. auto.
Qed.

Lemma get_records_dataframe_body_ok net ets mts data_ids st records :
  request_ok ets mts = true ->
  parse_lines (records_txt net) = Ok records ->
  forallb (id_accepted (observed_ids records)) (default [] data_ids) = true ->
  let eff := effective_ids (observed_ids records) (default [] data_ids) in
  get_records_dataframe_body net ets mts data_ids st
  = (Return (DataFrame (matched ets eff records)), say st [UrlOpen manifest_url]).
Proof.
  intros Hreq Hparse Hids eff.
  apply request_ok_inv in Hreq as (H1 & H2 & H3 & H4).
  unfold get_records_dataframe_body. rewrite H1, H2. cbn [orb].
  step. rewrite check_experiment_types_pass by assumption.
  step. rewrite check_media_types_pass by assumption.
  step. unfold urlopen_lines. step. cbn [emit mret prog_ret].
  step. rewrite (read_records_ok _ _ _ Hparse).
  step. rewrite (ids_block _ _ _ _ Hids). fold eff.
  unfold ret, create_dataframe_from_records_meta. now rewrite filter_selected.
Qed.

Lemma body_bad_media net ets good m rest data_ids st :
  is_nil ets = false -> forallb experiment_type_ok ets = true ->
  forallb media_type_ok good = true -> media_type_ok m = false ->
  let st' := say st [Print ("Invalid media type " +:+ quoted m); Usage] in
  download_body net ets (good ++ m :: rest) data_ids st = (Return PyNone, st')
  /\ get_records_dataframe_body net ets (good ++ m :: rest) data_ids st
     = (Return (DataFrame []), st').
Proof.
  intros H1 H3 Hg Hm st'.
  assert (H2 : is_nil (good ++ m :: rest) = false) by (destruct good; reflexivity).
  unfold download_body, get_records_dataframe_body. rewrite H1, H2. cbn [orb].
  split.
  - step. rewrite check_experiment_types_pass by assumption.
    step. now rewrite check_media_types_fail.
  - step. rewrite check_experiment_types_pass by assumption.
    step. now rewrite check_media_types_fail.
Qed.

Lemma body_bad_experiment_type net good e rest mts data_ids st :
  is_nil mts = false ->
  forallb experiment_type_ok good = true -> experiment_type_ok e = false ->
  let st' := say st [Print ("Invalid experiment type " +:+ quoted e); Usage] in
  download_body net (good ++ e :: rest) mts data_ids st = (Return PyNone, st')
  /\ get_records_dataframe_body net (good ++ e :: rest) mts data_ids st
     = (Return (DataFrame []), st').
Proof.
  intros H2 Hg He st'.
  assert (H1 : is_nil (good ++ e :: rest) = false) by (destruct good; reflexivity).
  unfold download_body, get_records_dataframe_body. rewrite H1, H2. cbn [orb].
  split; step; now rewrite check_experiment_types_fail.
Qed.

Lemma body_bad_line net ets mts data_ids st good bad rest rs e :
  request_ok ets mts = true ->
  records_txt net = (good ++ bad :: rest)%list ->
  parse_lines good = Ok rs -> parse_record bad = Raise e ->
  download_body net ets mts data_ids st
  = (Throw e, say st [PrintSet (list_to_set ets); PrintSet (list_to_set mts);
                      UrlOpen manifest_url])
  /\ get_records_dataframe_body net ets mts data_ids st
     = (Throw e, say st [UrlOpen manifest_url]).
Proof.
  intros Hreq Hnet Hg Hb.
  apply request_ok_inv in Hreq as (H1 & H2 & H3 & H4).
  unfold download_body, get_records_dataframe_body. rewrite H1, H2. cbn [orb].
  split.
  - step. rewrite check_experiment_types_pass by assumption.
    step. rewrite check_media_types_pass by assumption.
    step. cbn [emit]. step. cbn [emit]. step. unfold urlopen_lines.
    step. cbn [emit mret prog_ret]. step. rewrite Hnet.
    rewrite (read_records_fail _ _ _ _ _ _ Hg Hb).
    unfold say. cbn [dirs files log]. now rewrite <- !app_assoc.
  - step. rewrite check_experiment_types_pass by assumption.
    step. rewrite check_media_types_pass by assumption.
    step. unfold urlopen_lines. step. cbn [emit mret prog_ret]. step.
    rewrite Hnet. now rewrite (read_records_fail _ _ _ _ _ _ Hg Hb).
Qed.

Lemma body_bad_id net ets mts st records good id rest :
  request_ok ets mts = true ->
  parse_lines (records_txt net) = Ok records ->
  forallb (id_accepted (observed_ids records)) good = true ->
  id_accepted (observed_ids records) id = false ->
  download_body net ets mts (Some (good ++ id :: rest)%list) st
  = (Return PyNone,
     say st ([PrintSet (list_to_set ets); PrintSet (list_to_set mts);
              UrlOpen manifest_url] ++ id_refusal id))
  /\ get_records_dataframe_body net ets mts (Some (good ++ id :: rest)%list) st
     = (Return (PyList []), say st (UrlOpen manifest_url :: id_refusal id)).
Proof.
  intros Hreq Hparse Hg Hid.
  apply request_ok_inv in Hreq as (H1 & H2 & H3 & H4).
  assert (Hn : is_nil (good ++ id :: rest) = false) by (destruct good; reflexivity).
  unfold download_body, get_records_dataframe_body. rewrite H1, H2. cbn [orb].
  change (default [] (Some (good ++ id :: rest)%list)) with (good ++ id :: rest)%list.
  rewrite Hn.
  split.
  - step. rewrite check_experiment_types_pass by assumption.
    step. rewrite check_media_types_pass by assumption.
    step. cbn [emit]. step. cbn [emit]. step. unfold urlopen_lines.
    step. cbn [emit mret prog_ret]. step.
    rewrite (read_records_ok _ _ _ Hparse). step. step.
    rewrite (check_ids_fail _ _ _ _ _ _ Hg Hid).
    unfold say. cbn [dirs files log]. now rewrite <- !app_assoc.
  - step. rewrite check_experiment_types_pass by assumption.
    step. rewrite check_media_types_pass by assumption.
    step. unfold urlopen_lines. step. cbn [emit mret prog_ret]. step.
    rewrite (read_records_ok _ _ _ Hparse). step. step.
    rewrite (check_ids_fail _ _ _ _ _ _ Hg Hid).
    unfold say. cbn [dirs files log]. now rewrite <- !app_assoc.
Qed.

Lemma body_missing_arguments net ets mts data_ids st :
  is_nil ets || is_nil mts = true ->
  download_body net ets mts data_ids st = (Return PyNone, say st [Usage])
  /\ get_records_dataframe_body net ets mts data_ids st
     = (Return (DataFrame []), say st [Usage]).
Proof.
  intros H. unfold download_body, get_records_dataframe_body. rewrite H.
  split; reflexivity.
Qed.

(** ** Facts on the event loop *)

Lemma fetch_data_start_skips t st :
  skips st t -> fetch_data_start t st = (Finished, st).
Proof.
  intros [Ho Hf]. unfold fetch_data_start, isfile. rewrite Ho.
  now rewrite bool_decide_eq_true_2.
Qed.

Lemma insert_status_tasks (p : pool) i t s s' :
  p !! i = Some (t, s) -> map fst (<[i := (t, s')]> p) = map fst p.
Proof.
  revert i. induction p as [|x p IH]; intros i; [discriminate|].
  destruct i as [|i]; simpl.
  - intros E. injection E as ->. reflexivity.
  - intros E. f_equal. now apply IH.
Qed.

Lemma resume_tasks net i c : map fst (fst (resume net i c)) = map fst (fst c).
Proof.
  destruct c as [p st]. unfold resume. cbn [fst snd].
  destruct (p !! i) as [[t s]|] eqn:E; [|reflexivity].
  pose proof (insert_status_tasks p i t s Finished E) as Hf.
  pose proof (insert_status_tasks p i t s Waiting E) as Hw.
  destruct s; [| |reflexivity].
  - unfold fetch_data_start. destruct (_ && _); cbn [fst]; assumption.
  - unfold fetch_data_finish. cbn [fst]. assumption.
Qed.

Lemma run_schedule_tasks net sched c :
  map fst (fst (run_schedule net sched c)) = map fst (fst c).
Proof.
  unfold run_schedule. revert c. induction sched as [|i sched IH]; intros c; simpl.
  - reflexivity.
  - rewrite IH. apply resume_tasks.
Qed.

Lemma gather_tasks net schedule tasks st :
  map fst (fst (gather net schedule tasks st)) = tasks.
Proof.
  unfold gather. rewrite run_schedule_tasks. cbn [fst].
  rewrite map_map. cbn [fst]. apply map_id.
Qed.

(** A stretch of a coroutine adds events of the fetch step and leaves
    the directories alone. *)
Lemma resume_log net i c :
  exists es, snd (resume net i c)
             = State (dirs (snd c)) (files (snd (resume net i c)))
                 (log (snd c) ++ es)
             /\ forallb is_fetch_event es = true.
Proof.
  destruct c as [p st]. unfold resume. cbn [fst snd].
  destruct (p !! i) as [[t s]|] eqn:E.
  - destruct s.
    + unfold fetch_data_start. destruct (_ && _); cbn [fst snd dirs files log].
      * exists []. destruct st. simpl. now rewrite app_nil_r.
      * eexists. split; reflexivity.
    + unfold fetch_data_finish. cbn [fst snd dirs files log].
      eexists. split; reflexivity.
    + exists []. destruct st. simpl. now rewrite app_nil_r.
  - exists []. destruct st. simpl. now rewrite app_nil_r.
Qed.

Lemma run_schedule_log net sched c :
  exists es, log (snd (run_schedule net sched c)) = (log (snd c) ++ es)%list
             /\ dirs (snd (run_schedule net sched c)) = dirs (snd c)
             /\ forallb is_fetch_event es = true.
Proof.
  unfold run_schedule. revert c. induction sched as [|i sched IH]; intros c; simpl.
  - exists []. now rewrite app_nil_r.
  - destruct (IH (resume net i c)) as (es & Hl & Hd & He).
    destruct (resume_log net i c) as (es0 & Hr & He0).
    exists (es0 ++ es). rewrite Hl, Hd, Hr. cbn [log dirs].
    rewrite app_assoc. repeat split. rewrite forallb_app, He0, He. reflexivity.
Qed.

(** Over files that all exist, a stretch only marks its coroutine as
    returned. *)
Lemma resume_settled net i p st :
  settled st p ->
  snd (resume net i (p, st)) = st
  /\ settled st (fst (resume net i (p, st)))
  /\ length (fst (resume net i (p, st))) = length p
  /\ (i < length p -> returned (fst (resume net i (p, st))) i)
  /\ (forall j, returned p j -> returned (fst (resume net i (p, st))) j).
Proof.
  intros Hs. unfold resume. cbn [fst snd].
  destruct (p !! i) as [[t s]|] eqn:E.
  - pose proof (proj1 (Forall_lookup _ _) Hs _ _ E) as [Hsk Hw]. cbn [fst snd] in *.
    assert (Hi : i < length p) by (eapply lookup_lt_Some; eassumption).
    destruct s; [| congruence |].
    + rewrite (fetch_data_start_skips _ _ Hsk). cbn [fst snd].
      split; [reflexivity|]. split; [|split; [|split]].
      * apply Forall_insert; [assumption|]. cbn [fst snd]. split; [assumption | discriminate].
      * apply length_insert.
      * intros _. exists t. now apply list_lookup_insert_eq.
      * intros j [t' Hj]. destruct (decide (i = j)) as [->|Hne].
        -- exists t. now apply list_lookup_insert_eq.
        -- exists t'. now rewrite list_lookup_insert_ne.
    + cbn [fst snd]. repeat split; try assumption.
      * intros _. now exists t.
      * auto.
  - cbn [fst snd]. repeat split; try assumption.
    + intros Hi. apply lookup_ge_None in E. lia.
    + auto.
Qed.

Lemma run_schedule_settled net sched p st :
  settled st p ->
  snd (run_schedule net sched (p, st)) = st
  /\ settled st (fst (run_schedule net sched (p, st)))
  /\ length (fst (run_schedule net sched (p, st))) = length p
  /\ (forall j, j < length p -> j ∈ sched \/ returned p j ->
                returned (fst (run_schedule net sched (p, st))) j).
Proof.
  unfold run_schedule. revert p. induction sched as [|i sched IH]; intros p Hs; simpl.
  - repeat split; try assumption. intros j _ [Hj|Hj]; [inversion Hj | assumption].
  - destruct (resume_settled net i p st Hs) as (H1 & H2 & H3 & H4 & H5).
    destruct (resume net i (p, st)) as [p' st'] eqn:E. cbn [fst snd] in *. subst st'.
    destruct (IH p' H2) as (I1 & I2 & I3 & I4).
    split; [assumption|]. split; [assumption|]. split; [lia|].
    intros j Hj Hor. apply I4; [lia|].
    destruct Hor as [Hin|Hr]; [|right; auto].
    apply elem_of_cons in Hin as [->|Hin]; [right; auto | left; assumption].
Qed.

(** A stretch moves its coroutine one step on, unless it has returned,
    and leaves the others where they are. *)
Lemma resume_progress net i (p : pool) st j t s :
  p !! j = Some (t, s) ->
  exists s', fst (resume net i (p, st)) !! j = Some (t, s')
             /\ progress s <= progress s'
             /\ (i = j -> Nat.min 2 (S (progress s)) <= progress s').
Proof.
  intros Hj. unfold resume. cbn [fst snd].
  assert (Hlt : j < length p) by (eapply lookup_lt_Some; eassumption).
  destruct (decide (i = j)) as [->|Hne].
  - rewrite Hj. destruct s.
    + unfold fetch_data_start. destruct (_ && _); cbn [fst].
      * exists Finished. rewrite list_lookup_insert_eq by assumption.
        cbn [progress]. repeat split; lia.
      * exists Waiting. rewrite list_lookup_insert_eq by assumption.
        cbn [progress]. repeat split; lia.
    + unfold fetch_data_finish. cbn [fst].
      exists Finished. rewrite list_lookup_insert_eq by assumption.
      cbn [progress]. repeat split; lia.
    + exists Finished. cbn [fst progress]. repeat split; [exact Hj | lia | lia].
  - exists s. split; [|split; [lia | intros; contradiction]].
    destruct (p !! i) as [[t0 s0]|]; [|exact Hj].
    destruct s0; [| |exact Hj].
    + unfold fetch_data_start. destruct (_ && _); cbn [fst];
        now rewrite list_lookup_insert_ne.
    + unfold fetch_data_finish. cbn [fst]. now rewrite list_lookup_insert_ne.
Qed.

Lemma run_schedule_progress net sched (p : pool) st j t s :
  p !! j = Some (t, s) ->
  exists s', fst (run_schedule net sched (p, st)) !! j = Some (t, s')
             /\ Nat.min 2 (progress s + count_occ Nat.eq_dec sched j)
                <= progress s'.
Proof.
  unfold run_schedule. revert p st s.
  induction sched as [|i sched IH]; intros p st s Hj.
  - exists s. split; [exact Hj|]. cbn [count_occ]. lia.
  - destruct (resume_progress net i p st j t s Hj) as (s1 & H1 & Hle & Hi).
    cbn [fold_left]. destruct (resume net i (p, st)) as [p1 st1]. cbn [fst] in H1.
    destruct (IH p1 st1 s1 H1) as (s' & H' & Hle').
    exists s'. split; [exact H'|]. cbn [count_occ].
    destruct (Nat.eq_dec i j) as [E|E]; [specialize (Hi E)|]; lia.
Qed.

Lemma count_occ_seq j n : j < n -> 1 <= count_occ Nat.eq_dec (seq 0 n) j.
Proof.
  intros H. apply (proj1 (count_occ_In Nat.eq_dec (seq 0 n) j)).
  apply in_seq. lia.
Qed.

(** The call of [gather] ends with every coroutine returned. *)
Lemma gather_all_finished net schedule tasks st :
  Forall (fun ts => snd ts = Finished) (fst (gather net schedule tasks st)).
Proof.
  apply Forall_lookup. intros j [t s] Hj. cbn [snd].
  assert (Hlen : j < length tasks).
  { apply lookup_lt_Some in Hj.
    rewrite <- (gather_tasks net schedule tasks st), length_map. exact Hj. }
  destruct (lookup_lt_is_Some_2 tasks j Hlen) as [t0 Ht0].
  assert (H0 : map (fun t => (t, Created)) tasks !! j = Some (t0, Created)).
  { change (map (fun t => (t, Created)) tasks)
      with ((fun t => (t, Created)) <$> tasks).
    now rewrite list_lookup_fmap, Ht0. }
  destruct (run_schedule_progress net
              (schedule ++ seq 0 (length tasks) ++ seq 0 (length tasks))
              _ st j t0 Created H0) as (s' & Hs' & Hle).
  fold (gather net schedule tasks st) in Hs'. rewrite Hs' in Hj.
  injection Hj as _ <-.
  rewrite !count_occ_app in Hle. pose proof (count_occ_seq j _ Hlen) as Hc.
  destruct s'; cbn [progress] in Hle; [lia | lia | reflexivity].
Qed.

(** A run over a manifest of two records: the directories come first,
    the requests go out in the order of creation, depth is left out for
    the force record, and the bodies are stored. *)
Example download_run :
  let net := Remote ["emg_gestures-03-walk-2020-01-01-12-00-00-000";
                     "emg_force-07-sit-2020-02-02-08-30-00-500"]
               (fun _ => "body") in
  let run := download net [] ["emg_gestures"; "emg_force"] ["depth"; "data-csv"]
               None (State ∅ ∅ []) in
  List.filter (fun e => negb (match e with
                               | Print _ | PrintSet _ | PrintList _ => true
                               | _ => false
                               end)) (log (snd run))
  = [UrlOpen manifest_url; MakeDirs "Data-CSV"; MakeDirs "Depth";
     Get (BASE_URL +:+ "Data-CSV&files=emg_gestures-03-walk-2020-01-01-12-00-00-000.zip");
     Get (BASE_URL +:+ "Depth&files=emg_gestures-03-walk-2020-01-01-12-00-00-000.zip");
     Get (BASE_URL +:+ "Data-CSV&files=emg_force-07-sit-2020-02-02-08-30-00-500.zip");
     WriteFile "Data-CSV/emg_gestures-03-walk-2020-01-01-12-00-00-000.zip" "body";
     WriteFile "Depth/emg_gestures-03-walk-2020-01-01-12-00-00-000.zip" "body";
     WriteFile "Data-CSV/emg_force-07-sit-2020-02-02-08-30-00-500.zip" "body"]
  /\ dom (files (snd run))
     = {["Data-CSV/emg_gestures-03-walk-2020-01-01-12-00-00-000.zip";
         "Depth/emg_gestures-03-walk-2020-01-01-12-00-00-000.zip";
         "Data-CSV/emg_force-07-sit-2020-02-02-08-30-00-500.zip"]}.
Proof. split; vm_compute; reflexivity. Qed.

(** ** The record parser *)

Lemma parse_record_name r :
  well_formed r = true -> parse_record (format_record r) = Ok r.
Proof.
  intros H. rewrite <- (append_empty_r (format_record r)).
  now apply parse_record_prefix.
Qed.

Lemma parse_record_ok_inv name r :
  parse_record name = Ok r ->
  well_formed r = true /\ exists rest, name = format_record r +:+ rest.
Proof.
  intros H. destruct (parse_record_cases name) as [(r' & rest & Hw & Hn & Hp)|Hp].
  - rewrite Hp in H. injection H as <-. eauto.
  - rewrite Hp in H. discriminate.
Qed.

Lemma parse_record_raise name :
  ~ starts_with_name name ->
  parse_record name = Raise (Warning ["Wrong record"; name]).
Proof.
  intros H. destruct (parse_record_cases name) as [(r & rest & Hw & Hn & _)|Hp].
  - exfalso. apply H. now exists r, rest.
  - assumption.
Qed.

Lemma parse_record_raise_inv name e :
  parse_record name = Raise e -> ~ starts_with_name name.
Proof.
  intros H (r & rest & Hw & ->). rewrite (parse_record_prefix _ _ Hw) in H.
  discriminate.
Qed.

Lemma format_record_longer r rest :
  rest <> "" -> format_record r <> format_record r +:+ rest.
Proof.
  intros Hr H. apply Hr.
  rewrite <- (append_empty_r (format_record r)) in H at 1.
  apply append_cancel_l in H. now symmetry.
Qed.

(** C5. A canonical name type-id-trajectory-date-time with a two-digit
    id, a date YYYY-MM-DD and a time HH-MM-SS-mmm parses, always into the
    same record, and formatting the five fields of that record gives the
    name back. *)
Theorem parse_record_roundtrip r :
  well_formed r = true ->
  parse_record (format_record r) = Ok r
  /\ forall r', parse_record (format_record r) = Ok r' ->
                format_record r' = format_record r.
Proof.
  intros H. pose proof (parse_record_name r H) as E. split; [exact E|].
  intros r' E'. rewrite E in E'. injection E' as <-. reflexivity.
Qed.

Lemma parse_record_roundtrip_witness :
  let r := Rec "emg_gestures" "03" "walk" "2020-01-01" "12-00-00-000" in
  format_record r = "emg_gestures-03-walk-2020-01-01-12-00-00-000"
  /\ parse_record (format_record r) = Ok r.
Proof.
  split; [reflexivity|].
  apply (parse_record_roundtrip
           (Rec "emg_gestures" "03" "walk" "2020-01-01" "12-00-00-000")).
  reflexivity.
Defined.

(** C8. The pattern is anchored at the start only: a line that starts
    with a canonical name parses into the fields of that name whatever
    follows the three millisecond digits, the text that follows is lost,
    and formatting the record gives the line back only when nothing
    follows. *)
Theorem parse_record_drops_trailing_text r rest :
  well_formed r = true ->
  parse_record (format_record r +:+ rest) = Ok r
  /\ (rest <> "" -> format_record r <> format_record r +:+ rest).
Proof.
  intros H. split; [now apply parse_record_prefix | apply format_record_longer].
Qed.

Lemma parse_record_drops_trailing_text_witness :
  let r := Rec "emg_gestures" "03" "walk" "2020-01-01" "12-00-00-000" in
  parse_record "emg_gestures-03-walk-2020-01-01-12-00-00-000.zip" = Ok r
  /\ format_record r <> "emg_gestures-03-walk-2020-01-01-12-00-00-000.zip".
Proof.
  pose proof (parse_record_drops_trailing_text
                (Rec "emg_gestures" "03" "walk" "2020-01-01" "12-00-00-000")
                ".zip" eq_refl) as [E N].
  split; [exact E | apply N; discriminate].
Defined.

Lemma parse_lines_ok_all lines rs l :
  parse_lines lines = Ok rs -> l ∈ lines -> exists r, parse_record l = Ok r.
Proof.
  revert rs. induction lines as [|x lines IH]; intros rs E Hl.
  - inversion Hl.
  - simpl in E. destruct (parse_record x) as [r|e] eqn:Ex; [|discriminate].
    destruct (parse_lines lines) as [rs'|e] eqn:El; [|discriminate].
    apply elem_of_cons in Hl as [->|Hl]; [eauto | eapply IH; eauto].
Qed.

(** A manifest with a line that does not start with a name stops at the
    first such line. *)
Lemma manifest_first_refusal lines name :
  name ∈ lines -> ~ starts_with_name name ->
  exists good bad rest rs,
    lines = good ++ bad :: rest /\ parse_lines good = Ok rs
    /\ ~ starts_with_name bad
    /\ parse_record bad = Raise (Warning ["Wrong record"; bad]).
Proof.
  intros Hin Hn. destruct (parse_lines lines) as [rs|e] eqn:E.
  - destruct (parse_lines_ok_all _ _ _ E Hin) as [r Hr].
    rewrite (parse_record_raise _ Hn) in Hr. discriminate.
  - destruct (parse_lines_first_failure _ _ E) as (good & bad & rest & rs & Hl & Hg & Hb).
    exists good, bad, rest, rs. pose proof (parse_record_raise_inv _ _ Hb) as Hnb.
    repeat split; try assumption. now apply parse_record_raise.
Qed.

Lemma download_stopped net schedule ets mts data_ids st v st' :
  download_body net ets mts data_ids st = (Return v, st') ->
  download net schedule ets mts data_ids st = (Ok v, [], st').
Proof. intros H. unfold download. now rewrite H. Qed.

Lemma download_raised net schedule ets mts data_ids st e st' :
  download_body net ets mts data_ids st = (Throw e, st') ->
  download net schedule ets mts data_ids st = (Raise e, [], st').
Proof. intros H. unfold download. now rewrite H. Qed.

Lemma dataframe_stopped net ets mts data_ids st v st' :
  get_records_dataframe_body net ets mts data_ids st = (Return v, st') ->
  get_records_dataframe net ets mts data_ids st = (Ok v, st').
Proof. intros H. unfold get_records_dataframe. now rewrite H. Qed.

Lemma dataframe_raised net ets mts data_ids st e st' :
  get_records_dataframe_body net ets mts data_ids st = (Throw e, st') ->
  get_records_dataframe net ets mts data_ids st = (Raise e, st').
Proof. intros H. unfold get_records_dataframe. now rewrite H. Qed.

(** C7, as the specification words it, fails: a line that is not a name
    of the record grammar, here one with a fourth millisecond digit,
    parses all the same, and a manifest made of that line is resolved
    without any abort. *)
Lemma parse_record_accepts_malformed_line :
  let line := "emg_gestures-03-walk-2020-01-01-12-00-00-0000" in
  let r := Rec "emg_gestures" "03" "walk" "2020-01-01" "12-00-00-000" in
  ~ is_name line
  /\ parse_record line = Ok r
  /\ fst (get_records_dataframe (Remote [line] (fun _ => ""))
            ["emg_gestures"] ["data-csv"] None (State ∅ ∅ []))
     = Ok (DataFrame [r]).
Proof.
  split; [|split; vm_compute; reflexivity].
  intros (r & Hw & Hl).
  pose proof (parse_record_name r Hw) as E. rewrite <- Hl in E.
  vm_compute in E. injection E as <-. vm_compute in Hl. discriminate Hl.
Qed.

Lemma parse_lines_start_with_names lines rs :
  parse_lines lines = Ok rs -> Forall starts_with_name lines.
Proof.
  intros E. apply Forall_forall. intros l Hl.
  destruct (parse_lines_ok_all _ _ _ E Hl) as [r Hr].
  apply parse_record_ok_inv in Hr as [Hw [rest Hn]]. now exists r, rest.
Qed.

(** C7, amended. A line no start of which is a name of the record
    grammar is refused with the warning, and no record comes out of it,
    whereas a line that starts with a name is parsed into the fields of
    that name whatever follows.  Once the experiment types and media
    types are accepted, a manifest that holds a line of the first kind
    ends the run at its first such line, every line before it being
    parsed: the run raises the warning of that line right after the
    manifest is read, so that no directory is made, no task is created,
    nothing is fetched and no table is built. *)
Theorem unparsable_line_aborts name :
  ~ starts_with_name name ->
  parse_record name = Raise (Warning ["Wrong record"; name])
  /\ (forall r rest, well_formed r = true ->
                     parse_record (format_record r +:+ rest) = Ok r)
  /\ forall net schedule ets mts data_ids st,
       request_ok ets mts = true -> name ∈ records_txt net ->
       exists good bad rest rs,
         records_txt net = good ++ bad :: rest
         /\ parse_lines good = Ok rs
         /\ Forall starts_with_name good
         /\ ~ starts_with_name bad
         /\ download net schedule ets mts data_ids st
            = (Raise (Warning ["Wrong record"; bad]), [],
               say st [PrintSet (list_to_set ets); PrintSet (list_to_set mts);
                       UrlOpen manifest_url])
         /\ get_records_dataframe net ets mts data_ids st
            = (Raise (Warning ["Wrong record"; bad]),
               say st [UrlOpen manifest_url]).
Proof.
  intros Hn. split; [now apply parse_record_raise|].
  split; [exact parse_record_prefix|].
  intros net schedule ets mts data_ids st Hreq Hin.
  destruct (manifest_first_refusal _ _ Hin Hn)
    as (good & bad & rest & rs & Hl & Hg & Hnb & Hb).
  destruct (body_bad_line net ets mts data_ids st _ _ _ _ _ Hreq Hl Hg Hb) as [Hd Hf].
  exists good, bad, rest, rs. split; [exact Hl|]. split; [exact Hg|].
  split; [exact (parse_lines_start_with_names _ _ Hg)|]. split; [exact Hnb|].
  split; [now apply download_raised | now apply dataframe_raised].
Qed.

Lemma unparsable_line_aborts_witness :
  let l1 := "emg_gestures-03-walk-2020-01-01-12-00-00-000" in
  let l2 := "emg_gestures-003-walk-2020-01-01-12-00-00-000" in
  let l3 := "emg_force-07-sit-2020-02-02-08-30-00-500" in
  let l4 := "" in
  let net := Remote [l1; l2; l3; l4] (fun _ => "") in
  let st := State ∅ ∅ [] in
  parse_record l4 = Raise (Warning ["Wrong record"; l4])
  /\ download net [] ["emg_gestures"] ["data-csv"] None st
     = (Raise (Warning ["Wrong record"; l2]), [],
        say st [PrintSet (list_to_set ["emg_gestures"]);
                PrintSet (list_to_set ["data-csv"]); UrlOpen manifest_url])
  /\ get_records_dataframe net ["emg_gestures"] ["data-csv"] None st
     = (Raise (Warning ["Wrong record"; l2]), say st [UrlOpen manifest_url]).
Proof.
  intros l1 l2 l3 l4 net st.
  assert (Hn : ~ starts_with_name l4).
  { apply (parse_record_raise_inv _ (Warning ["Wrong record"; l4])).
    vm_compute. reflexivity. }
  destruct (unparsable_line_aborts l4 Hn) as (Hp & _ & Hrun).
  split; [exact Hp|].
  destruct (Hrun net [] ["emg_gestures"] ["data-csv"] None st eq_refl)
    as (good & bad & rest & rs & Hl & Hg & _ & Hnb & Hd & Hf).
  { unfold net. cbn [records_txt]. set_solver. }
  assert (Hbad : bad = l2).
  { unfold net in Hl. cbn [records_txt] in Hl.
    destruct good as [|g1 [|g2 [|g3 [|g4 good]]]]; cbn [app] in Hl.
    - injection Hl as <- _. exfalso. apply Hnb.
      exists (Rec "emg_gestures" "03" "walk" "2020-01-01" "12-00-00-000"), "".
      split; reflexivity.
    - now injection Hl as _ <- _.
    - injection Hl as <- <- _. vm_compute in Hg. discriminate Hg.
    - injection Hl as <- <- <- _. vm_compute in Hg. discriminate Hg.
    - injection Hl as _ _ _ _ Hl. destruct good; discriminate Hl. }
  rewrite Hbad in Hd, Hf. split; [exact Hd | exact Hf].
Defined.

(** ** Record selection *)

Lemma elem_of_effective_ids (observed : gset string) requested x :
  x ∈ effective_ids observed requested
  <-> x ∈ observed /\ (requested = [] \/ x ∈ requested).
Proof.
  unfold effective_ids. destruct requested as [|y l]; cbn [is_nil].
  - split; [intros H; auto | intros [H _]; exact H].
  - rewrite elem_of_intersection, elem_of_list_to_set.
    split; [intros [H1 H2]; auto | intros [H1 [H2|H2]]; [discriminate | auto]].
Qed.

Lemma elem_of_matched ets (eff : gset string) records r :
  r ∈ matched ets eff records
  <-> r ∈ records /\ r_type r ∈ ets /\ r_id r ∈ eff.
Proof.
  unfold matched. rewrite list_elem_of_In, filter_In, <- list_elem_of_In.
  rewrite andb_true_iff, !bool_decide_eq_true. reflexivity.
Qed.

Lemma download_ok net schedule ets mts data_ids st records :
  request_ok ets mts = true ->
  parse_lines (records_txt net) = Ok records ->
  forallb (id_accepted (observed_ids records)) (default [] data_ids) = true ->
  let eff := effective_ids (observed_ids records) (default [] data_ids) in
  let tasks := flat_map (record_tasks (list_to_set mts)) (matched ets eff records) in
  let st1 :=
    State (dirs st ∪ list_to_set (requested_dirs (list_to_set mts))) (files st)
      (log st ++ [PrintSet (list_to_set ets); PrintSet (list_to_set mts);
                  UrlOpen manifest_url; PrintList (sorted_list eff)]
              ++ map MakeDirs (requested_dirs (list_to_set mts))) in
  download net schedule ets mts data_ids st
  = (Ok PyNone, fst (gather net schedule tasks st1),
     snd (gather net schedule tasks st1)).
Proof.
  intros Hreq Hparse Hids eff tasks st1. unfold download.
  rewrite (download_body_ok _ _ _ _ _ _ Hreq Hparse Hids).
  fold eff. fold tasks. fold st1. now destruct (gather net schedule tasks st1).
Qed.

(** C1. When the experiment types, the media types, the manifest and
    the requested IDs get past their checks, the matched record set is
    the parsed records, in the order of the manifest, whose type is among
    the requested types and whose ID is in the effective ID set: the
    observed IDs that are also requested when IDs are requested, every
    observed ID otherwise.  [get_records_dataframe] returns the table of
    that set and [download] creates the tasks of exactly its records. *)
Theorem matched_record_set net schedule ets mts data_ids st records :
  request_ok ets mts = true ->
  parse_lines (records_txt net) = Ok records ->
  forallb (id_accepted (observed_ids records)) (default [] data_ids) = true ->
  let requested := default [] data_ids in
  let effective := effective_ids (observed_ids records) requested in
  let selection := matched ets effective records in
  fst (get_records_dataframe net ets mts data_ids st) = Ok (DataFrame selection)
  /\ map fst (snd (fst (download net schedule ets mts data_ids st)))
     = flat_map (record_tasks (list_to_set mts)) selection
  /\ (forall r, r ∈ selection
                <-> r ∈ records /\ r_type r ∈ ets /\ r_id r ∈ effective)
  /\ (forall x, x ∈ effective
                <-> x ∈ observed_ids records /\ (requested = [] \/ x ∈ requested)).
Proof.
  intros Hreq Hparse Hids requested effective selection.
  split; [|split; [|split]].
  - rewrite (dataframe_stopped _ _ _ _ _ _ _
               (get_records_dataframe_body_ok _ _ _ _ _ _ Hreq Hparse Hids)).
    reflexivity.
  - rewrite (download_ok _ _ _ _ _ _ _ Hreq Hparse Hids). cbn [fst snd].
    apply gather_tasks.
  - intros r. apply elem_of_matched.
  - intros x. apply elem_of_effective_ids.
Qed.

Lemma matched_record_set_witness :
  let net := Remote ["emg_gestures-03-walk-2020-01-01-12-00-00-000";
                     "emg_force-07-sit-2020-02-02-08-30-00-500"]
               (fun _ => "") in
  fst (get_records_dataframe net ["emg_gestures"] ["data-csv"] None
         (State ∅ ∅ []))
  = Ok (DataFrame [Rec "emg_gestures" "03" "walk" "2020-01-01" "12-00-00-000"]).
Proof.
  intros net.
  pose proof (matched_record_set net [] ["emg_gestures"] ["data-csv"] None
                (State ∅ ∅ [])
                [Rec "emg_gestures" "03" "walk" "2020-01-01" "12-00-00-000";
                 Rec "emg_force" "07" "sit" "2020-02-02" "08-30-00-500"]
                eq_refl eq_refl eq_refl) as [H _].
  rewrite H. vm_compute. reflexivity.
Defined.

(** ** Artifact expansion *)

Lemma record_tasks_table (mts : gset string) r :
  record_tasks mts r
  = flat_map (fun m => if bool_decide (m ∈ mts) && applicable m r
                       then [artifact m r] else [])
      supported_media_types.
Proof.
  unfold record_tasks, applicable, artifact. cbn [flat_map supported_media_types].
  destruct (bool_decide ("data-csv" ∈ mts));
  destruct (bool_decide ("data-hdf5" ∈ mts));
  destruct (bool_decide ("depth" ∈ mts));
  destruct (bool_decide ("video-1080p" ∈ mts));
  destruct (bool_decide ("video-576p" ∈ mts));
  destruct (String.eqb (r_type r) "emg_force"); reflexivity.
Qed.

Lemma supported_media_type_cases m :
  m ∈ supported_media_types ->
  m = "data-csv" \/ m = "data-hdf5" \/ m = "depth" \/ m = "video-1080p"
  \/ m = "video-576p".
Proof.
  unfold supported_media_types. rewrite !elem_of_cons, elem_of_nil. tauto.
Qed.

Lemma directory_unsupported m :
  m ∉ supported_media_types -> directory m = "".
Proof.
  unfold supported_media_types. rewrite !not_elem_of_cons. intros (H1 & H2 & H3 & H4 & H5 & _).
  unfold directory.
  apply String.eqb_neq in H1, H2, H3, H4, H5. now rewrite H1, H2, H3, H4, H5.
Qed.

Lemma record_tasks_elem (mts : gset string) r t :
  t ∈ record_tasks mts r ->
  exists m, m ∈ supported_media_types /\ m ∈ mts /\ applicable m r = true
            /\ t = artifact m r.
Proof.
  rewrite record_tasks_table. intros H.
  apply list_elem_of_In, in_flat_map in H as (m & Hm & Ht).
  apply list_elem_of_In in Hm. exists m.
  destruct (bool_decide (m ∈ mts)) eqn:E1; [|inversion Ht].
  destruct (applicable m r) eqn:E2; [|inversion Ht].
  apply bool_decide_eq_true in E1. cbn [andb] in Ht.
  destruct Ht as [<-|[]]. auto.
Qed.

(** C2. The tasks of a record are, in the order of the table, one call
    of [fetch_data] for each of the five media types that is selected,
    except depth for a record of type emg_force; counted by directory
    there is exactly one per such media type and none for anything else.
    Every task carries the canonical name of the record, its five fields
    type, id, trajectory, date and time joined by dashes.  The address
    fetched is the base address, the directory, the marker of the file
    name, the canonical name, a dot and the extension; the local path is
    the directory, a slash, the canonical name, a dot and the extension;
    directory and extension are those of the table.  For a record of the
    grammar the name parses back into the record. *)
Theorem record_tasks_expansion (mts : gset string) (r : record) :
  let name :=
    r_type r +:+ "-" +:+ r_id r +:+ "-" +:+ r_trajectory r +:+ "-" +:+
    r_date r +:+ "-" +:+ r_time r in
  record_tasks mts r
  = flat_map (fun m => if bool_decide (m ∈ mts) && applicable m r
                       then [Task BASE_URL (directory m) name (extension m) false]
                       else [])
      supported_media_types
  /\ (forall m,
        length (List.filter (fun t => String.eqb (data_dir t) (directory m))
                  (record_tasks mts r))
        = if bool_decide (m ∈ supported_media_types) && bool_decide (m ∈ mts)
             && negb (String.eqb m "depth" && String.eqb (r_type r) "emg_force")
          then 1 else 0)
  /\ (forall t, t ∈ record_tasks mts r ->
        record_name t = name
        /\ (exists m, m ∈ supported_media_types /\ m ∈ mts
                      /\ data_dir t = directory m /\ file_type t = extension m)
        /\ url_of t
           = "https://chmura.put.poznan.pl/s/G285gnQVuCnfQAx/download?path=%2F"
             +:+ data_dir t +:+ "&files=" +:+ name +:+ "." +:+ file_type t
        /\ file_path_of t = data_dir t +:+ "/" +:+ name +:+ "." +:+ file_type t)
  /\ (forall m,
        url_of (artifact m r)
        = BASE_URL +:+ directory m +:+ "&files=" +:+ name +:+ "." +:+ extension m
        /\ file_path_of (artifact m r)
           = directory m +:+ "/" +:+ name +:+ "." +:+ extension m)
  /\ (well_formed r = true -> parse_record name = Ok r)
  /\ (directory "data-csv" = "Data-CSV" /\ extension "data-csv" = "zip")
  /\ (directory "data-hdf5" = "Data-HDF5" /\ extension "data-hdf5" = "hdf5")
  /\ (directory "depth" = "Depth" /\ extension "depth" = "zip")
  /\ (directory "video-1080p" = "Video-1080p" /\ extension "video-1080p" = "mp4")
  /\ (directory "video-576p" = "Video-576p" /\ extension "video-576p" = "mp4").
Proof.
  intros name.
  split; [exact (record_tasks_table mts r)|].
  split; [|split; [|split; [intros m; split; reflexivity
                           |split; [exact (parse_record_name r) | repeat split]]]].
  - intros m. destruct (decide (m ∈ supported_media_types)) as [Hm|Hm].
    + rewrite (bool_decide_eq_true_2 _ Hm). cbn [andb].
      unfold record_tasks.
      destruct (supported_media_type_cases m Hm) as [->|[->|[->|[->| ->]]]];
        destruct (bool_decide ("data-csv" ∈ mts));
        destruct (bool_decide ("data-hdf5" ∈ mts));
        destruct (bool_decide ("depth" ∈ mts));
        destruct (bool_decide ("video-1080p" ∈ mts));
        destruct (bool_decide ("video-576p" ∈ mts));
        destruct (String.eqb (r_type r) "emg_force"); reflexivity.
    + rewrite (bool_decide_eq_false_2 _ Hm). cbn [andb].
      rewrite (directory_unsupported m Hm). unfold record_tasks.
      destruct (bool_decide ("data-csv" ∈ mts));
        destruct (bool_decide ("data-hdf5" ∈ mts));
        destruct (bool_decide ("depth" ∈ mts));
        destruct (bool_decide ("video-1080p" ∈ mts));
        destruct (bool_decide ("video-576p" ∈ mts));
        destruct (String.eqb (r_type r) "emg_force"); reflexivity.
  - intros t Ht. apply record_tasks_elem in Ht as (m & Hs & Hm & _ & ->).
    split; [reflexivity|]. split; [|split; reflexivity].
    exists m. auto.
Qed.

Lemma record_tasks_expansion_witness :
  let r := Rec "emg_gestures" "03" "walk" "2020-01-01" "12-00-00-000" in
  map (fun t => (record_name t, url_of t, file_path_of t))
    (record_tasks {["data-csv"]} r)
  = [("emg_gestures-03-walk-2020-01-01-12-00-00-000",
      "https://chmura.put.poznan.pl/s/G285gnQVuCnfQAx/download?path=%2F"
      +:+ "Data-CSV&files=emg_gestures-03-walk-2020-01-01-12-00-00-000.zip",
      "Data-CSV/emg_gestures-03-walk-2020-01-01-12-00-00-000.zip")]
  /\ parse_record "emg_gestures-03-walk-2020-01-01-12-00-00-000" = Ok r.
Proof.
  intros r.
  destruct (record_tasks_expansion {["data-csv"]} r)
    as (Htasks & _ & _ & _ & Hparse & _).
  split.
  - rewrite Htasks. vm_compute. reflexivity.
  - exact (Hparse eq_refl).
Defined.

(** ** The fetch step *)

Lemma settled_created st tasks :
  Forall (skips st) tasks -> settled st (map (fun t => (t, Created)) tasks).
Proof.
  intros H. unfold settled. apply Forall_forall. intros [t s] Hin.
  apply list_elem_of_In, in_map_iff in Hin as (t' & E & Hin).
  injection E as -> <-. cbn [fst snd]. split; [|discriminate].
  apply list_elem_of_In in Hin. eapply (proj1 (Forall_forall _ _)); eauto.
Qed.

Lemma gather_settled net schedule tasks st :
  Forall (skips st) tasks ->
  snd (gather net schedule tasks st) = st
  /\ Forall (fun ts => snd ts = Finished) (fst (gather net schedule tasks st)).
Proof.
  intros H. unfold gather.
  destruct (run_schedule_settled net
              (schedule ++ seq 0 (length tasks) ++ seq 0 (length tasks))
              _ st (settled_created st tasks H)) as (H1 & H2 & H3 & H4).
  split; [assumption|].
  rewrite length_map in H3, H4.
  apply Forall_lookup. intros i [t s] Hi. cbn [snd].
  assert (Hlt : i < length tasks) by (rewrite <- H3; eapply lookup_lt_Some; eauto).
  destruct (H4 i Hlt) as [t' Ht'].
  - left. rewrite !elem_of_app. right. left. apply elem_of_seq. lia.
  - rewrite Ht' in Hi. now injection Hi as _ <-.
Qed.

Lemma record_tasks_no_overwrite (mts : gset string) r t :
  t ∈ record_tasks mts r -> overwrite_existing t = false.
Proof.
  unfold record_tasks.
  destruct (bool_decide ("data-csv" ∈ mts));
  destruct (bool_decide ("data-hdf5" ∈ mts));
  destruct (bool_decide ("depth" ∈ mts) && negb (String.eqb (r_type r) "emg_force"));
  destruct (bool_decide ("video-1080p" ∈ mts));
  destruct (bool_decide ("video-576p" ∈ mts)); cbn [app];
  rewrite ?elem_of_cons, elem_of_nil; intros H;
  repeat (destruct H as [->|H]; [reflexivity|]); contradiction.
Qed.

(** C3. A call of [fetch_data] that may not overwrite and finds its
    local file returns at once: it prints nothing, sends no request and
    writes nothing.  Hence a run of the fetch step over tasks whose local
    files all exist leaves the state as it was, so that its log gains no
    request, and every task has returned, whatever the order in which
    the loop resumes the tasks; and a call of [download] whose artifacts
    all exist locally sends no request for an artifact. *)
Theorem existing_files_are_skipped net schedule tasks st :
  Forall (fun t => overwrite_existing t = false
                   /\ is_Some (files st !! file_path_of t)) tasks ->
  (forall t, t ∈ tasks -> fetch_data_start t st = (Finished, st))
  /\ snd (gather net schedule tasks st) = st
  /\ List.filter is_request (log (snd (gather net schedule tasks st)))
     = List.filter is_request (log st)
  /\ map fst (fst (gather net schedule tasks st)) = tasks
  /\ Forall (fun ts => snd ts = Finished) (fst (gather net schedule tasks st))
  /\ (forall ets mts data_ids records,
        request_ok ets mts = true ->
        parse_lines (records_txt net) = Ok records ->
        forallb (id_accepted (observed_ids records)) (default [] data_ids) = true ->
        (forall t,
           t ∈ flat_map (record_tasks (list_to_set mts))
                 (matched ets
                    (effective_ids (observed_ids records) (default [] data_ids))
                    records) ->
           is_Some (files st !! file_path_of t)) ->
        List.filter is_get
          (log (snd (download net schedule ets mts data_ids st)))
        = List.filter is_get (log st)
        /\ files (snd (download net schedule ets mts data_ids st)) = files st).
Proof.
  intros H. destruct (gather_settled net schedule tasks st H) as [H1 H2].
  split; [|split; [|split; [|split; [|split]]]].
  - intros t Ht. apply fetch_data_start_skips.
    eapply (proj1 (Forall_forall _ _)); eauto.
  - assumption.
  - now rewrite H1.
  - apply gather_tasks.
  - assumption.
  - intros ets mts data_ids records Hreq Ep Hids Hfiles.
    rewrite (download_ok _ _ _ _ _ _ _ Hreq Ep Hids). cbn [snd].
    set (ts := flat_map _ _) in *. set (st1 := State _ _ _).
    assert (Hs : Forall (skips st1) ts).
    { apply Forall_forall. intros t Ht. split; [|now apply Hfiles].
      unfold ts in Ht. apply list_elem_of_In, in_flat_map in Ht as (r & _ & Ht).
      apply list_elem_of_In in Ht. now apply record_tasks_no_overwrite in Ht. }
    destruct (gather_settled net schedule ts st1 Hs) as [-> _].
    unfold st1. cbn [log files]. split; [|reflexivity].
    rewrite !List.filter_app. cbn [List.filter is_get].
    assert (Hm : forall l, List.filter is_get (map MakeDirs l) = []).
    { intros l. induction l as [|d l IH]; [reflexivity | exact IH]. }
    rewrite Hm. now rewrite !app_nil_r.
Qed.

Lemma existing_files_are_skipped_witness :
  let t := Task BASE_URL DATA_CSV_DIR
             "emg_gestures-03-walk-2020-01-01-12-00-00-000" "zip" false in
  let st := State {[DATA_CSV_DIR]} {[file_path_of t := "zipped"]} [] in
  snd (gather (Remote [] (fun _ => "")) [0; 0] [t] st) = st.
Proof.
  intros t st.
  apply (existing_files_are_skipped (Remote [] (fun _ => "")) [0; 0] [t] st).
  constructor; [|constructor].
  split; [reflexivity|]. vm_compute. eexists. reflexivity.
Defined.

(** ** Validation of the request *)

Lemma prefix_iff m t : String.prefix m t = true <-> exists b, t = m +:+ b.
Proof.
  revert t. induction m as [|c m IH]; intros t.
  - split; [intros _; now exists t | intros _; now destruct t].
  - destruct t as [|c' t]; simpl.
    + split; [discriminate | intros [b Hb]; discriminate].
    + destruct (ascii_dec c c') as [<-|Hne].
      * rewrite IH. split; intros [b Hb]; exists b; [now rewrite Hb | now injection Hb].
      * split; [discriminate | intros [b Hb]; congruence].
Qed.

Lemma str_contains_iff t m : str_contains t m = true <-> substring_of m t.
Proof.
  unfold substring_of. induction t as [|c t IH].
  - cbn [str_contains]. rewrite orb_false_r, prefix_iff. split.
    + intros [b Hb]. now exists "", b.
    + intros (a & b & H). destruct a; [now exists b | discriminate].
  - cbn [str_contains]. rewrite orb_true_iff, prefix_iff, IH. split.
    + intros [[b Hb]|(a & b & Hab)].
      * now exists "", b.
      * exists (String c a), b. simpl. now rewrite Hab.
    + intros (a & b & H). destruct a as [|c' a].
      * left. now exists b.
      * right. simpl in H. injection H as _ H. now exists a, b.
Qed.

Lemma media_type_ok_iff m :
  media_type_ok m = true
  <-> exists t, t ∈ supported_media_types /\ substring_of m t.
Proof.
  unfold media_type_ok. rewrite existsb_exists. split.
  - intros (t & Hin & H). exists t. split; [now apply list_elem_of_In|].
    now apply str_contains_iff.
  - intros (t & Hin & H). exists t. split; [now apply list_elem_of_In|].
    now apply str_contains_iff.
Qed.

Lemma forallb_media_type_ok mts :
  Forall (fun m => exists t, t ∈ supported_media_types /\ substring_of m t) mts ->
  forallb media_type_ok mts = true.
Proof.
  intros H. apply forallb_forall. intros m Hm. apply media_type_ok_iff.
  apply list_elem_of_In in Hm. exact (proj1 (Forall_forall _ _) H m Hm).
Qed.

Lemma gather_log net schedule tasks st e :
  e ∈ log st -> e ∈ log (snd (gather net schedule tasks st)).
Proof.
  intros H. unfold gather.
  destruct (run_schedule_log net
              (schedule ++ seq 0 (length tasks) ++ seq 0 (length tasks))
              (map (fun t => (t, Created)) tasks, st)) as (es & Hl & _ & _).
  rewrite Hl. cbn [snd]. apply elem_of_app. now left.
Qed.

(** A request that gets past the checks of its types is followed by the
    request of the manifest, however the run ends. *)
Lemma accepted_request_reads_manifest net schedule ets mts data_ids st :
  request_ok ets mts = true ->
  UrlOpen manifest_url ∈ log (snd (download net schedule ets mts data_ids st))
  /\ UrlOpen manifest_url ∈ log (snd (get_records_dataframe net ets mts data_ids st)).
Proof.
  intros Hreq. destruct (parse_lines (records_txt net)) as [records|e] eqn:Ep.
  - destruct (forallb (id_accepted (observed_ids records)) (default [] data_ids))
      eqn:Ei.
    + rewrite (download_ok _ _ _ _ _ _ _ Hreq Ep Ei). cbn [snd].
      rewrite (dataframe_stopped _ _ _ _ _ _ _
                 (get_records_dataframe_body_ok _ _ _ _ _ _ Hreq Ep Ei)).
      cbn [snd]. split.
      * apply gather_log. cbn [log]. set_solver.
      * unfold say. cbn [log]. set_solver.
    + destruct (first_failure _ _ Ei) as (good & id & rest & Hl & Hg & Hid).
      destruct data_ids as [l|]; [|destruct good; discriminate Hl].
      change (default [] (Some l)) with l in Hl. subst l.
      destruct (body_bad_id net ets mts st records good id rest Hreq Ep Hg Hid)
        as [Hd Hf].
      rewrite (download_stopped _ schedule _ _ _ _ _ _ Hd).
      rewrite (dataframe_stopped _ _ _ _ _ _ _ Hf).
      unfold say. cbn [snd log]. split; set_solver.
  - destruct (parse_lines_first_failure _ _ Ep) as (good & bad & rest & rs & Hl & Hg & Hb).
    destruct (body_bad_line net ets mts data_ids st _ _ _ _ _ Hreq Hl Hg Hb) as [Hd Hf].
    rewrite (download_raised _ schedule _ _ _ _ _ _ Hd).
    rewrite (dataframe_raised _ _ _ _ _ _ _ Hf).
    unfold say. cbn [snd log]. split; set_solver.
Qed.

(** A request that does not get past the checks of its types ends
    before anything is requested, made or fetched. *)
Lemma rejected_request_no_io net schedule ets mts data_ids st :
  request_ok ets mts = false ->
  exists es,
    download net schedule ets mts data_ids st = (Ok PyNone, [], say st es)
    /\ get_records_dataframe net ets mts data_ids st
       = (Ok (DataFrame []), say st es)
    /\ List.filter is_request es = [].
Proof.
  unfold request_ok. intros H.
  destruct (is_nil ets || is_nil mts) eqn:En.
  - destruct (body_missing_arguments net ets mts data_ids st En) as [Hd Hf].
    exists [Usage]. split; [now apply download_stopped|].
    split; [now apply dataframe_stopped | reflexivity].
  - apply orb_false_elim in En as [E1 E2]. rewrite E1, E2 in H. cbn [negb andb] in H.
    destruct (forallb experiment_type_ok ets) eqn:Ee.
    + cbn [andb] in H.
      destruct (first_failure _ _ H) as (good & m & rest & -> & Hg & Hm).
      destruct (body_bad_media net ets good m rest data_ids st E1 Ee Hg Hm)
        as [Hd Hf].
      exists [Print ("Invalid media type " +:+ quoted m); Usage].
      split; [now apply download_stopped|].
      split; [now apply dataframe_stopped | reflexivity].
    + destruct (first_failure _ _ Ee) as (good & e & rest & -> & Hg & He).
      destruct (body_bad_experiment_type net good e rest mts data_ids st E2 Hg He)
        as [Hd Hf].
      exists [Print ("Invalid experiment type " +:+ quoted e); Usage].
      split; [now apply download_stopped|].
      split; [now apply dataframe_stopped | reflexivity].
Qed.

Lemma filter_say p st es :
  List.filter p es = [] -> List.filter p (log (say st es)) = List.filter p (log st).
Proof.
  intros H. unfold say. cbn [log]. rewrite List.filter_app, H. apply app_nil_r.
Qed.

(** C4. The check of the media types accepts an element exactly when
    it occurs inside one of the five known media types.  Once the
    experiment types are accepted, the first element that occurs in none
    of them ends the call with the message that names it and the usage
    text, before any request is sent; when every element occurs in one of
    them the call goes on to request the manifest.  Whatever the
    experiment types are, a request with an element that occurs in none
    of the known media types sends no request at all. *)
Theorem media_type_validation net schedule ets data_ids st :
  is_nil ets = false -> forallb experiment_type_ok ets = true ->
  (forall m, media_type_ok m = true
             <-> exists t, t ∈ supported_media_types /\ substring_of m t)
  /\ (forall good m rest,
        Forall (fun x => exists t, t ∈ supported_media_types /\ substring_of x t)
          good ->
        ~ (exists t, t ∈ supported_media_types /\ substring_of m t) ->
        let st' := say st [Print ("Invalid media type " +:+ quoted m); Usage] in
        download net schedule ets (good ++ m :: rest) data_ids st
        = (Ok PyNone, [], st')
        /\ get_records_dataframe net ets (good ++ m :: rest) data_ids st
           = (Ok (DataFrame []), st')
        /\ List.filter is_request (log st') = List.filter is_request (log st))
  /\ (forall mts,
        mts <> [] ->
        Forall (fun x => exists t, t ∈ supported_media_types /\ substring_of x t)
          mts ->
        UrlOpen manifest_url
          ∈ log (snd (download net schedule ets mts data_ids st))
        /\ UrlOpen manifest_url
             ∈ log (snd (get_records_dataframe net ets mts data_ids st)))
  /\ (forall ets' mts,
        Exists (fun m => ~ exists t, t ∈ supported_media_types /\ substring_of m t)
          mts ->
        List.filter is_request
          (log (snd (download net schedule ets' mts data_ids st)))
        = List.filter is_request (log st)
        /\ List.filter is_request
             (log (snd (get_records_dataframe net ets' mts data_ids st)))
           = List.filter is_request (log st)).
Proof.
  intros Hn He. split; [apply media_type_ok_iff|]. split; [|split].
  - intros good m rest Hg Hm st'.
    assert (Em : media_type_ok m = false).
    { destruct (media_type_ok m) eqn:E; [|reflexivity].
      exfalso. apply Hm. now apply media_type_ok_iff. }
    destruct (body_bad_media net ets good m rest data_ids st Hn He
                (forallb_media_type_ok _ Hg) Em) as [Hd Hf].
    split; [now apply download_stopped|]. split; [now apply dataframe_stopped|].
    now apply filter_say.
  - intros mts Hne Hall. apply accepted_request_reads_manifest.
    unfold request_ok. rewrite Hn, He, (forallb_media_type_ok _ Hall).
    destruct mts; [contradiction | reflexivity].
  - intros ets' mts Hex.
    assert (Hr : request_ok ets' mts = false).
    { unfold request_ok. apply andb_false_iff. right.
      destruct (forallb media_type_ok mts) eqn:Ef; [|reflexivity]. exfalso.
      apply Exists_exists in Hex as (m & Hin & Hm). apply Hm.
      apply media_type_ok_iff. rewrite forallb_forall in Ef.
      apply Ef. now apply list_elem_of_In. }
    destruct (rejected_request_no_io net schedule ets' mts data_ids st Hr)
      as (es & -> & -> & Hes).
    cbn [snd]. split; now apply filter_say.
Qed.

Lemma media_type_validation_witness :
  let st := State ∅ ∅ [] in
  download (Remote [] (fun _ => "")) [] ["emg_gestures"] ["data-csv"; "audio"]
    None st
  = (Ok PyNone, [], say st [Print ("Invalid media type " +:+ quoted "audio"); Usage])
  /\ media_type_ok "csv" = true.
Proof.
  intros st.
  pose proof (media_type_validation (Remote [] (fun _ => "")) [] ["emg_gestures"]
                None st eq_refl eq_refl) as (Hiff & Hbad & _).
  split.
  - apply (Hbad ["data-csv"] "audio" []).
    + constructor; [|constructor]. apply Hiff. reflexivity.
    + intros Hex. apply Hiff in Hex. discriminate Hex.
  - reflexivity.
Defined.

Lemma parse_lines_well_formed lines records r :
  parse_lines lines = Ok records -> r ∈ records -> well_formed r = true.
Proof.
  revert records. induction lines as [|l lines IH]; intros records E Hr; simpl in E.
  - injection E as <-. inversion Hr.
  - destruct (parse_record l) as [r0|e] eqn:El; [|discriminate].
    destruct (parse_lines lines) as [rs|e] eqn:Els; [|discriminate].
    injection E as <-. apply elem_of_cons in Hr as [->|Hr].
    + now apply parse_record_ok_inv in El as [Hw _].
    + eapply IH; eauto.
Qed.

(** Every observed ID is two decimal digits. *)
Lemma observed_ids_shape lines records id :
  parse_lines lines = Ok records -> id ∈ observed_ids records ->
  has_shape "dd" id = true.
Proof.
  intros E Hid. unfold observed_ids in Hid.
  apply elem_of_list_to_set, list_elem_of_In, in_map_iff in Hid as (r & <- & Hr).
  apply list_elem_of_In in Hr.
  pose proof (parse_lines_well_formed _ _ _ E Hr) as Hw. unfold well_formed in Hw.
  apply andb_prop in Hw as [Hw _]. apply andb_prop in Hw as [Hw _].
  apply andb_prop in Hw as [Hw _]. now apply andb_prop in Hw as [_ Hw].
Qed.

Lemma id_ok_of_shape id : has_shape "dd" id = true -> id_ok id = true.
Proof.
  intros H. open_shape H. unfold id_ok. apply bool_decide_eq_true_2.
  unfold Re.rmatch, id_regexp. simpl. use_digits. simpl. eauto.
Qed.

Lemma id_accepted_false lines records id :
  parse_lines lines = Ok records ->
  (id_accepted (observed_ids records) id = false
   <-> has_shape "dd" id = false \/ id ∉ observed_ids records).
Proof.
  intros E. unfold id_accepted. rewrite andb_false_iff, bool_decide_eq_false. split.
  - intros [H|H]; [|now right].
    destruct (has_shape "dd" id) eqn:Es; [|now left].
    rewrite (id_ok_of_shape _ Es) in H. discriminate.
  - intros [H|H]; [|now right].
    destruct (decide (id ∈ observed_ids records)) as [Hin|Hout]; [|now right].
    rewrite (observed_ids_shape _ _ _ E Hin) in H. discriminate.
Qed.

(** C6. With the manifest parsed, a requested ID that is not two
    decimal digits or is not among the observed IDs keeps every call of
    [download] from creating a task or making a directory, so that no
    call of [fetch_data] is dispatched and no artifact is requested.
    When the experiment types and media types are accepted the call ends
    at the first such ID with the message that names it, and
    [get_records_dataframe] returns without a row. *)
Theorem invalid_id_no_fetch net schedule ets mts ids st records :
  request_ok ets mts = true ->
  parse_lines (records_txt net) = Ok records ->
  Exists (fun id => has_shape "dd" id = false \/ id ∉ observed_ids records) ids ->
  (exists good id rest,
     ids = good ++ id :: rest
     /\ (has_shape "dd" id = false \/ id ∉ observed_ids records)
     /\ download net schedule ets mts (Some ids) st
        = (Ok PyNone, [],
           say st ([PrintSet (list_to_set ets); PrintSet (list_to_set mts);
                    UrlOpen manifest_url] ++ id_refusal id))
     /\ fst (get_records_dataframe net ets mts (Some ids) st) = Ok (PyList []))
  /\ (forall ets' mts',
        let run := download net schedule ets' mts' (Some ids) st in
        fst (fst run) = Ok PyNone
        /\ snd (fst run) = []
        /\ List.filter is_get (log (snd run)) = List.filter is_get (log st)
        /\ dirs (snd run) = dirs st /\ files (snd run) = files st).
Proof.
  intros Hreq Ep Hex.
  assert (Ef : forallb (id_accepted (observed_ids records)) ids = false).
  { destruct (forallb _ ids) eqn:Ef; [|reflexivity]. exfalso.
    apply Exists_exists in Hex as (id & Hin & Hbad).
    apply (id_accepted_false _ _ _ Ep) in Hbad.
    rewrite forallb_forall in Ef. apply list_elem_of_In in Hin.
    rewrite (Ef _ Hin) in Hbad. discriminate. }
  destruct (first_failure _ _ Ef) as (good & id & rest & -> & Hg & Hid).
  split.
  - destruct (body_bad_id net ets mts st records good id rest Hreq Ep Hg Hid)
      as [Hd Hf].
    exists good, id, rest. split; [reflexivity|].
    split; [now apply (id_accepted_false _ _ _ Ep)|].
    rewrite (download_stopped _ schedule _ _ _ _ _ _ Hd).
    rewrite (dataframe_stopped _ _ _ _ _ _ _ Hf).
    split; reflexivity.
  - intros ets' mts' run. unfold run.
    destruct (request_ok ets' mts') eqn:Hreq'.
    + destruct (body_bad_id net ets' mts' st records good id rest Hreq' Ep Hg Hid)
        as [Hd _].
      rewrite (download_stopped _ schedule _ _ _ _ _ _ Hd). cbn [fst snd].
      repeat split. apply filter_say.
      rewrite List.filter_app. unfold id_refusal.
      destruct (negb (id_ok id)); reflexivity.
    + destruct (rejected_request_no_io net schedule ets' mts'
                  (Some (good ++ id :: rest)) st Hreq') as (es & -> & _ & Hes).
      cbn [fst snd]. repeat split. apply filter_say.
      clear -Hes. induction es as [|e es IH]; [reflexivity|].
      destruct e; simpl in *; try discriminate; auto.
Qed.

Lemma invalid_id_no_fetch_witness :
  let net := Remote ["emg_gestures-03-walk-2020-01-01-12-00-00-000"]
               (fun _ => "") in
  let st := State ∅ ∅ [] in
  exists good id rest,
    ["03"; "04"; "3"] = good ++ id :: rest
    /\ download net [] ["emg_gestures"] ["data-csv"] (Some ["03"; "04"; "3"]) st
       = (Ok PyNone, [],
          say st ([PrintSet (list_to_set ["emg_gestures"]);
                   PrintSet (list_to_set ["data-csv"]);
                   UrlOpen manifest_url] ++ id_refusal id))
    /\ fst (get_records_dataframe net ["emg_gestures"] ["data-csv"]
              (Some ["03"; "04"; "3"]) st) = Ok (PyList []).
Proof.
  intros net st.
  destruct (invalid_id_no_fetch net [] ["emg_gestures"] ["data-csv"]
              ["03"; "04"; "3"] st
              [Rec "emg_gestures" "03" "walk" "2020-01-01" "12-00-00-000"]
              eq_refl eq_refl)
    as [(good & id & rest & Hl & _ & Hd & Hf) _].
  - apply Exists_cons_tl, Exists_cons_hd. right. vm_compute. intros H.
    discriminate H.
  - exists good, id, rest. split; [exact Hl|]. split; [exact Hd | exact Hf].
Defined.

(** C9. When the check of the requested IDs fails in
    [get_records_dataframe], on an ID that is not two digits or is not in
    the manifest, the function returns [records_meta] itself, an empty
    list, where each of its other early exits (a missing argument, an
    unknown experiment type, an unknown media type) returns the empty
    table built from it. *)
Theorem id_failure_returns_bare_list net ets mts st records good id rest :
  request_ok ets mts = true ->
  parse_lines (records_txt net) = Ok records ->
  forallb (id_accepted (observed_ids records)) good = true ->
  id_accepted (observed_ids records) id = false ->
  get_records_dataframe net ets mts (Some (good ++ id :: rest)) st
  = (Ok (PyList []), say st (UrlOpen manifest_url :: id_refusal id))
  /\ (forall ets' mts' data_ids,
        is_nil ets' || is_nil mts' = true ->
        get_records_dataframe net ets' mts' data_ids st
        = (Ok (DataFrame []), say st [Usage]))
  /\ (forall good' e rest' mts' data_ids,
        is_nil mts' = false ->
        forallb experiment_type_ok good' = true -> experiment_type_ok e = false ->
        get_records_dataframe net (good' ++ e :: rest') mts' data_ids st
        = (Ok (DataFrame []),
           say st [Print ("Invalid experiment type " +:+ quoted e); Usage]))
  /\ (forall ets' good' m rest' data_ids,
        is_nil ets' = false -> forallb experiment_type_ok ets' = true ->
        forallb media_type_ok good' = true -> media_type_ok m = false ->
        get_records_dataframe net ets' (good' ++ m :: rest') data_ids st
        = (Ok (DataFrame []),
           say st [Print ("Invalid media type " +:+ quoted m); Usage])).
Proof.
  intros Hreq Ep Hg Hid. split; [|split; [|split]].
  - apply dataframe_stopped.
    now apply (body_bad_id net ets mts st records good id rest Hreq Ep Hg Hid).
  - intros ets' mts' data_ids H. apply dataframe_stopped.
    now apply body_missing_arguments.
  - intros good' e rest' mts' data_ids H2 H3 H4. apply dataframe_stopped.
    now apply body_bad_experiment_type.
  - intros ets' good' m rest' data_ids H1 H2 H3 H4. apply dataframe_stopped.
    now apply body_bad_media.
Qed.

Lemma id_failure_returns_bare_list_witness :
  let net := Remote ["emg_gestures-03-walk-2020-01-01-12-00-00-000"]
               (fun _ => "") in
  fst (get_records_dataframe net ["emg_gestures"] ["data-csv"] (Some ["3"])
         (State ∅ ∅ []))
  = Ok (PyList [])
  /\ fst (get_records_dataframe net ["emg_gestures"] ["audio"] (Some ["3"])
            (State ∅ ∅ []))
     = Ok (DataFrame []).
Proof.
  intros net.
  pose proof (id_failure_returns_bare_list net ["emg_gestures"] ["data-csv"]
                (State ∅ ∅ [])
                [Rec "emg_gestures" "03" "walk" "2020-01-01" "12-00-00-000"]
                [] "3" [] eq_refl eq_refl eq_refl eq_refl) as (H1 & _ & _ & H4).
  split.
  - change (Some ["3"]) with (Some ([] ++ "3" :: [])). rewrite H1. reflexivity.
  - change ["audio"] with ([] ++ "audio" :: []).
    rewrite (H4 ["emg_gestures"] [] "audio" [] (Some ["3"]) eq_refl eq_refl
               eq_refl eq_refl).
    reflexivity.
Defined.

(** ** Directories *)

Lemma requested_dirs_elem (mts : list string) m :
  m ∈ supported_media_types -> m ∈ mts ->
  directory m ∈ requested_dirs (list_to_set mts).
Proof.
  intros Hs Hm. unfold requested_dirs. apply list_elem_of_In, in_map.
  apply filter_In. split; [now apply list_elem_of_In|].
  apply bool_decide_eq_true_2. now apply elem_of_list_to_set.
Qed.

Lemma force_record_no_depth (mts : gset string) r t :
  r_type r = "emg_force" -> t ∈ record_tasks mts r -> data_dir t <> DEPTH_DIR.
Proof.
  intros Hr. unfold record_tasks. rewrite Hr. cbn [String.eqb negb andb].
  rewrite andb_false_r.
  destruct (bool_decide ("data-csv" ∈ mts));
  destruct (bool_decide ("data-hdf5" ∈ mts));
  destruct (bool_decide ("video-1080p" ∈ mts));
  destruct (bool_decide ("video-576p" ∈ mts)); cbn [app];
  rewrite ?elem_of_cons, elem_of_nil; intros H;
  repeat (destruct H as [->|H]; [discriminate|]); contradiction.
Qed.

(** C10. A call of [download] that gets past its checks makes the
    directory of every requested media type of the table before it looks
    at a record: the directories made depend on the requested media types
    alone, every event of the fetch step comes after them in the log, and
    when depth is requested the Depth directory exists at the end even if
    every record is of type emg_force, in which case no task targets
    it. *)
Theorem directories_made_before_records net schedule ets mts data_ids st records :
  request_ok ets mts = true ->
  parse_lines (records_txt net) = Ok records ->
  forallb (id_accepted (observed_ids records)) (default [] data_ids) = true ->
  let run := download net schedule ets mts data_ids st in
  let effective := effective_ids (observed_ids records) (default [] data_ids) in
  fst (fst run) = Ok PyNone
  /\ (exists es,
        log (snd run)
        = log st ++ [PrintSet (list_to_set ets); PrintSet (list_to_set mts);
                     UrlOpen manifest_url; PrintList (sorted_list effective)]
                 ++ map MakeDirs (requested_dirs (list_to_set mts)) ++ es
        /\ forallb is_fetch_event es = true)
  /\ dirs (snd run) = dirs st ∪ list_to_set (requested_dirs (list_to_set mts))
  /\ (forall m, m ∈ supported_media_types -> m ∈ mts ->
                directory m ∈ dirs (snd run))
  /\ ("depth" ∈ mts -> Forall (fun r => r_type r = "emg_force") records ->
      DEPTH_DIR ∈ dirs (snd run)
      /\ Forall (fun ts => data_dir (fst ts) <> DEPTH_DIR) (snd (fst run))).
Proof.
  intros Hreq Ep Hids run effective. unfold run.
  rewrite (download_ok _ _ _ _ _ _ _ Hreq Ep Hids). fold effective. cbn [fst snd].
  set (tasks := flat_map _ _). set (st1 := State _ _ _).
  destruct (run_schedule_log net
              (schedule ++ seq 0 (length tasks) ++ seq 0 (length tasks))
              (map (fun t => (t, Created)) tasks, st1)) as (es & Hl & Hd & He).
  fold (gather net schedule tasks st1) in Hl, Hd. cbn [snd] in Hl, Hd.
  assert (Hm : forall m, m ∈ supported_media_types -> m ∈ mts ->
                         directory m ∈ dirs (snd (gather net schedule tasks st1))).
  { intros m Hs Hin. rewrite Hd. unfold st1. cbn [dirs].
    apply elem_of_union. right. apply elem_of_list_to_set.
    now apply requested_dirs_elem. }
  split; [reflexivity|]. split; [|split; [|split; [exact Hm|]]].
  - exists es. split; [|exact He]. rewrite Hl. unfold st1. cbn [log].
    now rewrite <- !app_assoc.
  - rewrite Hd. reflexivity.
  - intros Hdepth Hforce. split.
    + apply (Hm "depth"); [|assumption]. unfold supported_media_types. set_solver.
    + apply Forall_forall. intros [t s] Hin. cbn [fst].
      assert (Ht : t ∈ tasks).
      { rewrite <- (gather_tasks net schedule tasks st1).
        apply list_elem_of_In, in_map_iff. exists (t, s).
        split; [reflexivity | now apply list_elem_of_In]. }
      unfold tasks in Ht. apply list_elem_of_In, in_flat_map in Ht as (r & Hr & Ht).
      apply list_elem_of_In in Hr, Ht. apply elem_of_matched in Hr as (Hr & _).
      apply (force_record_no_depth (list_to_set mts) r t); [|assumption].
      exact (proj1 (Forall_forall _ _) Hforce r Hr).
Qed.

Lemma directories_made_before_records_witness :
  let net := Remote ["emg_force-07-sit-2020-02-02-08-30-00-500"] (fun _ => "") in
  let run := download net [] ["emg_force"] ["depth"] None (State ∅ ∅ []) in
  DEPTH_DIR ∈ dirs (snd run)
  /\ Forall (fun ts => data_dir (fst ts) <> DEPTH_DIR) (snd (fst run)).
Proof.
  intros net run.
  apply (directories_made_before_records net [] ["emg_force"] ["depth"] None
           (State ∅ ∅ [])
           [Rec "emg_force" "07" "sit" "2020-02-02" "08-30-00-500"]
           eq_refl eq_refl eq_refl).
  - set_solver.
  - constructor; [reflexivity | constructor].
Defined.

(** * Further properties of the program *)

(** ** How a call can end *)

Lemma parse_record_raise_warning line e :
  parse_record line = Raise e -> e = Warning ["Wrong record"; line].
Proof.
  intros H. destruct (parse_record_cases line) as [(r & rest & _ & _ & Hp)|Hp];
    rewrite Hp in H; [discriminate | now injection H as <-].
Qed.

(** A request refused at the checks of its types only prints. *)
Lemma rejected_request_prints net schedule ets mts data_ids st :
  request_ok ets mts = false ->
  exists es,
    download net schedule ets mts data_ids st = (Ok PyNone, [], say st es)
    /\ get_records_dataframe net ets mts data_ids st
       = (Ok (DataFrame []), say st es)
    /\ forallb is_print es = true.
Proof.
  unfold request_ok. intros H.
  destruct (is_nil ets || is_nil mts) eqn:En.
  - destruct (body_missing_arguments net ets mts data_ids st En) as [Hd Hf].
    exists [Usage]. split; [now apply download_stopped|].
    split; [now apply dataframe_stopped | reflexivity].
  - apply orb_false_elim in En as [E1 E2]. rewrite E1, E2 in H. cbn [negb andb] in H.
    destruct (forallb experiment_type_ok ets) eqn:Ee.
    + cbn [andb] in H.
      destruct (first_failure _ _ H) as (good & m & rest & -> & Hg & Hm).
      destruct (body_bad_media net ets good m rest data_ids st E1 Ee Hg Hm)
        as [Hd Hf].
      exists [Print ("Invalid media type " +:+ quoted m); Usage].
      split; [now apply download_stopped|].
      split; [now apply dataframe_stopped | reflexivity].
    + destruct (first_failure _ _ Ee) as (good & e & rest & -> & Hg & He).
      destruct (body_bad_experiment_type net good e rest mts data_ids st E2 Hg He)
        as [Hd Hf].
      exists [Print ("Invalid experiment type " +:+ quoted e); Usage].
      split; [now apply download_stopped|].
      split; [now apply dataframe_stopped | reflexivity].
Qed.

Lemma prints_quiet es : forallb is_print es = true -> quiet es.
Proof.
  intros H. left. induction es as [|e es IH]; [reflexivity|].
  simpl in H. apply andb_prop in H as [He Hes]. simpl. rewrite He. simpl. auto.
Qed.

(** A call of [download] ends before it creates a task, with nothing
    done but prints and at most the request of the manifest, or it gets
    past every check. *)
Lemma download_cases net schedule ets mts data_ids st :
  (exists out es,
      download net schedule ets mts data_ids st = (out, [], say st es)
      /\ quiet es
      /\ (out = Ok PyNone
          \/ exists line, line ∈ records_txt net
                          /\ out = Raise (Warning ["Wrong record"; line])))
  \/ (exists records,
        request_ok ets mts = true
        /\ parse_lines (records_txt net) = Ok records
        /\ forallb (id_accepted (observed_ids records)) (default [] data_ids)
           = true).
Proof.
  destruct (request_ok ets mts) eqn:Hreq.
  - destruct (parse_lines (records_txt net)) as [records|e] eqn:Ep.
    + destruct (forallb (id_accepted (observed_ids records)) (default [] data_ids))
        eqn:Ei.
      * right. now exists records.
      * left. destruct (first_failure _ _ Ei) as (good & id & rest & Hl & Hg & Hid).
        destruct data_ids as [l|]; [|destruct good; discriminate Hl].
        change (default [] (Some l)) with l in Hl. subst l.
        destruct (body_bad_id net ets mts st records good id rest Hreq Ep Hg Hid)
          as [Hd _].
        eexists _, _. split; [exact (download_stopped _ schedule _ _ _ _ _ _ Hd)|].
        split; [|now left]. right. rewrite List.filter_app. unfold id_refusal.
        destruct (negb (id_ok id)); reflexivity.
    + left.
      destruct (parse_lines_first_failure _ _ Ep)
        as (good & bad & rest & rs & Hl & Hg & Hb).
      destruct (body_bad_line net ets mts data_ids st _ _ _ _ _ Hreq Hl Hg Hb)
        as [Hd _].
      eexists _, _. split; [exact (download_raised _ schedule _ _ _ _ _ _ Hd)|].
      split; [right; reflexivity|]. right. exists bad.
      split; [rewrite Hl; set_solver|].
      now rewrite (parse_record_raise_warning _ _ Hb).
  - left. destruct (rejected_request_prints net schedule ets mts data_ids st Hreq)
      as (es & Hd & _ & Hes).
    exists (Ok PyNone), es. split; [exact Hd|]. split; [|now left].
    now apply prints_quiet.
Qed.

(** The same for [get_records_dataframe], which past every check
    returns the table of the matched records. *)
Lemma dataframe_cases net ets mts data_ids st :
  (exists out es,
      get_records_dataframe net ets mts data_ids st = (out, say st es)
      /\ quiet es
      /\ (out = Ok (DataFrame []) \/ out = Ok (PyList [])
          \/ exists line, line ∈ records_txt net
                          /\ out = Raise (Warning ["Wrong record"; line])))
  \/ (exists records,
        request_ok ets mts = true
        /\ parse_lines (records_txt net) = Ok records
        /\ forallb (id_accepted (observed_ids records)) (default [] data_ids)
           = true
        /\ get_records_dataframe net ets mts data_ids st
           = (Ok (DataFrame
                    (matched ets
                       (effective_ids (observed_ids records) (default [] data_ids))
                       records)),
              say st [UrlOpen manifest_url])).
Proof.
  destruct (request_ok ets mts) eqn:Hreq.
  - destruct (parse_lines (records_txt net)) as [records|e] eqn:Ep.
    + destruct (forallb (id_accepted (observed_ids records)) (default [] data_ids))
        eqn:Ei.
      * right. exists records. repeat split; try assumption.
        apply dataframe_stopped.
        now apply get_records_dataframe_body_ok.
      * left. destruct (first_failure _ _ Ei) as (good & id & rest & Hl & Hg & Hid).
        destruct data_ids as [l|]; [|destruct good; discriminate Hl].
        change (default [] (Some l)) with l in Hl. subst l.
        destruct (body_bad_id net ets mts st records good id rest Hreq Ep Hg Hid)
          as [_ Hf].
        eexists _, _. split; [exact (dataframe_stopped _ _ _ _ _ _ _ Hf)|].
        split; [|now right; left]. right.
        change (UrlOpen manifest_url :: id_refusal id)
          with ([UrlOpen manifest_url] ++ id_refusal id).
        rewrite List.filter_app. unfold id_refusal.
        destruct (negb (id_ok id)); reflexivity.
    + left.
      destruct (parse_lines_first_failure _ _ Ep)
        as (good & bad & rest & rs & Hl & Hg & Hb).
      destruct (body_bad_line net ets mts data_ids st _ _ _ _ _ Hreq Hl Hg Hb)
        as [_ Hf].
      eexists _, _. split; [exact (dataframe_raised _ _ _ _ _ _ _ Hf)|].
      split; [right; reflexivity|]. right. right. exists bad.
      split; [rewrite Hl; set_solver|].
      now rewrite (parse_record_raise_warning _ _ Hb).
  - left. destruct (rejected_request_prints net [] ets mts data_ids st Hreq)
      as (es & _ & Hf & Hes).
    exists (Ok (DataFrame [])), es. split; [exact Hf|]. split; [|now left].
    now apply prints_quiet.
Qed.

(** ** The stretches of the event loop, one by one *)

(** What one resumption does: nothing, the end of a call on an
    existing file, the request of a call, or the storing of a body. *)
Lemma resume_cases net i (p : pool) st :
  resume net i (p, st) = (p, st)
  \/ (exists t, p !! i = Some (t, Created)
                /\ negb (overwrite_existing t) && isfile (file_path_of t) st = true
                /\ resume net i (p, st) = (<[i := (t, Finished)]> p, st))
  \/ (exists t, p !! i = Some (t, Created)
                /\ negb (overwrite_existing t) && isfile (file_path_of t) st = false
                /\ resume net i (p, st)
                   = (<[i := (t, Waiting)]> p,
                      say st [Print ("Fetching " +:+ file_path_of t);
                              Get (url_of t)]))
  \/ (exists t, p !! i = Some (t, Waiting)
                /\ resume net i (p, st)
                   = (<[i := (t, Finished)]> p,
                      State (dirs st)
                        (<[file_path_of t := payload net (url_of t)]> (files st))
                        (log st ++ [Print ("Storing " +:+ file_path_of t);
                                    WriteFile (file_path_of t)
                                      (payload net (url_of t))]))).
Proof.
  unfold resume. cbn [fst snd].
  destruct (p !! i) as [[t s]|] eqn:E; [|now left].
  destruct s; [| |now left].
  - unfold fetch_data_start.
    destruct (negb (overwrite_existing t) && isfile (file_path_of t) st) eqn:Eb.
    + right. left. exists t. auto.
    + right. right. left. exists t. auto.
  - right. right. right. exists t. auto.
Qed.

Lemma run_schedule_invariant net (P : pool * state -> Prop) sched c :
  P c -> (forall i c, P c -> P (resume net i c)) ->
  P (run_schedule net sched c).
Proof.
  intros Hc Hstep. unfold run_schedule. revert c Hc.
  induction sched as [|i sched IH]; intros c Hc; simpl; auto.
Qed.

Lemma pool_task_elem (p : pool) (tasks : list task) i t s :
  map fst p = tasks -> p !! i = Some (t, s) -> t ∈ tasks.
Proof.
  intros <- H. apply list_elem_of_In, in_map_iff. exists (t, s).
  split; [reflexivity|]. apply list_elem_of_In. eapply list_elem_of_lookup_2; eauto.
Qed.

Lemma lookup_insert_status (p : pool) i j t s t' s' :
  <[i := (t, s)]> p !! j = Some (t', s') ->
  (i = j /\ t' = t /\ s' = s) \/ (i <> j /\ p !! j = Some (t', s')).
Proof.
  intros H. apply list_lookup_insert_Some in H as [(-> & E & _)|(Hne & H)].
  - left. injection E as <- <-. auto.
  - right. auto.
Qed.


Lemma isfile_is_Some t st :
  negb (overwrite_existing t) && isfile (file_path_of t) st = true ->
  overwrite_existing t = false /\ is_Some (files st !! file_path_of t).
Proof.
  intros H. apply andb_prop in H as [H1 H2]. apply negb_true_iff in H1.
  unfold isfile in H2. apply bool_decide_eq_true in H2. auto.
Qed.

Lemma loop_invariant_start net tasks st :
  loop_invariant net tasks st (map (fun t => (t, Created)) tasks, st).
Proof.
  unfold loop_invariant. cbn [fst snd]. repeat split.
  - rewrite map_map. cbn [fst]. apply map_id.
  - exists []. split; [now rewrite app_nil_r | constructor].
  - intros j t H. exfalso.
    change (map (fun t => (t, Created)) tasks)
      with ((fun t => (t, Created)) <$> tasks) in H.
    rewrite list_lookup_fmap in H. destruct (tasks !! j); discriminate H.
  - auto.
  - intros path. now left.
Qed.

Lemma loop_invariant_resume net tasks st0 i c :
  loop_invariant net tasks st0 c -> loop_invariant net tasks st0 (resume net i c).
Proof.
  destruct c as [p st]. intros (Ht & Hd & (es & Hl & Hes) & Hf & Hm & Hk).
  cbn [fst snd] in *.
  destruct (resume_cases net i p st)
    as [E|[(t & Ei & Eb & E)|[(t & Ei & Eb & E)|(t & Ei & E)]]]; rewrite E;
    unfold loop_invariant; cbn [fst snd].
  - repeat split; eauto.
  - apply isfile_is_Some in Eb as [_ Hfile].
    split; [rewrite (insert_status_tasks p i t Created Finished Ei); exact Ht|].
    split; [exact Hd|]. split; [eauto|]. split; [|split; [exact Hm | exact Hk]].
    intros j t' Hj. apply lookup_insert_status in Hj as [(-> & -> & _)|(_ & Hj)];
      [exact Hfile | eauto].
  - pose proof (pool_task_elem p tasks i t Created Ht Ei) as Hin.
    split; [rewrite (insert_status_tasks p i t Created Waiting Ei); exact Ht|].
    unfold say. cbn [dirs files log].
    split; [exact Hd|]. split; [|split; [|split; [exact Hm | exact Hk]]].
    + exists (es ++ [Print ("Fetching " +:+ file_path_of t); Get (url_of t)]).
      split; [rewrite Hl; now rewrite <- app_assoc|].
      apply Forall_app. split; [exact Hes|].
      constructor; [exists t; auto|]. constructor; [exists t; auto | constructor].
    + intros j t' Hj. apply lookup_insert_status in Hj as [(_ & _ & Hs)|(_ & Hj)];
        [discriminate Hs | eauto].
  - pose proof (pool_task_elem p tasks i t Waiting Ht Ei) as Hin.
    split; [rewrite (insert_status_tasks p i t Waiting Finished Ei); exact Ht|].
    cbn [dirs files log].
    split; [exact Hd|]. split; [|split; [|split]].
    + exists (es ++ [Print ("Storing " +:+ file_path_of t);
                     WriteFile (file_path_of t) (payload net (url_of t))]).
      split; [rewrite Hl; now rewrite <- app_assoc|].
      apply Forall_app. split; [exact Hes|].
      constructor; [exists t; auto|].
      constructor; [exists t; auto 6 | constructor].
    + intros j t' Hj. apply lookup_insert_is_Some.
      apply lookup_insert_status in Hj as [(_ & -> & _)|(_ & Hj)]; [now left|].
      destruct (decide (file_path_of t = file_path_of t')); [now left|].
      right. eauto.
    + intros path Hp. apply lookup_insert_is_Some.
      destruct (decide (file_path_of t = path)); [now left | right; eauto].
    + intros path. destruct (decide (file_path_of t = path)) as [<-|Hne].
      * right. exists t. repeat split; [exact Hin|]. apply lookup_insert_eq.
      * rewrite lookup_insert_ne by exact Hne. apply Hk.
Qed.

Lemma loop_invariant_gather net schedule tasks st :
  loop_invariant net tasks st (gather net schedule tasks st).
Proof.
  unfold gather. apply run_schedule_invariant.
  - apply loop_invariant_start.
  - intros i c. apply loop_invariant_resume.
Qed.

Lemma keeps_existing_resume net tasks st0 i c :
  Forall (fun t => overwrite_existing t = false) tasks ->
  map fst (fst c) = tasks ->
  (forall path, is_Some (files st0 !! path) -> is_Some (files (snd c) !! path)) ->
  keeps_existing st0 c -> keeps_existing st0 (resume net i c).
Proof.
  destruct c as [p st]. intros Hno Ht Hm [Hk Hw]. cbn [fst snd] in *.
  destruct (resume_cases net i p st)
    as [E|[(t & Ei & Eb & E)|[(t & Ei & Eb & E)|(t & Ei & E)]]]; rewrite E;
    unfold keeps_existing; cbn [fst snd].
  - split; assumption.
  - split; [exact Hk|]. intros j t' Hj.
    apply lookup_insert_status in Hj as [(_ & _ & Hs)|(_ & Hj)];
      [discriminate Hs | eauto].
  - unfold say. cbn [files]. split; [exact Hk|]. intros j t' Hj.
    apply lookup_insert_status in Hj as [(_ & -> & _)|(_ & Hj)]; [|eauto].
    pose proof (pool_task_elem p tasks i t Created Ht Ei) as Hin.
    pose proof (proj1 (Forall_forall _ _) Hno t Hin) as Ho.
    rewrite Ho in Eb. cbn [negb andb] in Eb. unfold isfile in Eb.
    apply bool_decide_eq_false in Eb.
    destruct (files st0 !! file_path_of t) eqn:E0; [|reflexivity].
    exfalso. apply Eb. apply Hm. rewrite E0. eauto.
  - cbn [files]. split.
    + intros path d Hp. rewrite lookup_insert_ne; [eauto|].
      intros <-. rewrite (Hw i t Ei) in Hp. discriminate.
    + intros j t' Hj.
      apply lookup_insert_status in Hj as [(_ & _ & Hs)|(_ & Hj)];
        [discriminate Hs | eauto].
Qed.

Lemma keeps_existing_gather net schedule tasks st :
  Forall (fun t => overwrite_existing t = false) tasks ->
  keeps_existing st (gather net schedule tasks st).
Proof.
  intros Hno.
  enough (H : loop_invariant net tasks st (gather net schedule tasks st)
              /\ keeps_existing st (gather net schedule tasks st)) by apply H.
  unfold gather.
  apply (run_schedule_invariant net
           (fun c => loop_invariant net tasks st c /\ keeps_existing st c)).
  - split; [apply loop_invariant_start|]. split; cbn [fst snd]; [auto|].
    intros j t H. exfalso.
    change (map (fun t => (t, Created)) tasks)
      with ((fun t => (t, Created)) <$> tasks) in H.
    rewrite list_lookup_fmap in H. destruct (tasks !! j); discriminate H.
  - intros i c [Hi Hk]. split; [now apply loop_invariant_resume|].
    destruct Hi as (Ht & _ & _ & _ & Hm & _).
    now apply (keeps_existing_resume net tasks).
Qed.

(** ** What a call of gather leaves behind *)

Lemma gather_pool_lookup net schedule tasks st t :
  t ∈ tasks ->
  exists j, fst (gather net schedule tasks st) !! j = Some (t, Finished).
Proof.
  intros Hin. apply list_elem_of_lookup in Hin as [j Hj].
  pose proof (gather_tasks net schedule tasks st) as Ht.
  pose proof (gather_all_finished net schedule tasks st) as Hf.
  assert (Hlen : j < length (fst (gather net schedule tasks st))).
  { rewrite <- (length_map fst), Ht. eapply lookup_lt_Some; eauto. }
  destruct (lookup_lt_is_Some_2 _ _ Hlen) as [[t' s] Hp].
  exists j. rewrite Hp.
  pose proof (proj1 (Forall_lookup _ _) Hf _ _ Hp) as Hs. cbn [snd] in Hs. subst s.
  assert (E : map fst (fst (gather net schedule tasks st)) !! j = Some t').
  { change (map fst (fst (gather net schedule tasks st)))
      with (fst <$> fst (gather net schedule tasks st)).
    now rewrite list_lookup_fmap, Hp. }
  rewrite Ht, Hj in E. now injection E as <-.
Qed.







(** ** One call of fetch_data *)





(** ** The tasks of a call of download *)

Lemma directory_supported m :
  m ∈ supported_media_types ->
  directory m ∈ [DATA_CSV_DIR; DATA_HDF5_DIR; DEPTH_DIR; VIDEO_1080p_DIR;
                 VIDEO_576p_DIR].
Proof.
  intros H. destruct (supported_media_type_cases m H) as [->|[->|[->|[->| ->]]]];
    vm_compute; set_solver.
Qed.

Lemma download_pool_elem net schedule ets mts data_ids st records t s :
  request_ok ets mts = true ->
  parse_lines (records_txt net) = Ok records ->
  forallb (id_accepted (observed_ids records)) (default [] data_ids) = true ->
  (t, s) ∈ snd (fst (download net schedule ets mts data_ids st)) ->
  exists r m, r ∈ records /\ well_formed r = true
              /\ m ∈ supported_media_types /\ m ∈ mts /\ t = artifact m r.
Proof.
  intros Hreq Ep Hids Hin.
  rewrite (download_ok _ _ _ _ _ _ _ Hreq Ep Hids) in Hin. cbn [fst snd] in Hin.
  set (tasks := flat_map _ _) in Hin. set (st1 := State _ _ _) in Hin.
  assert (Ht : t ∈ tasks).
  { rewrite <- (gather_tasks net schedule tasks st1).
    apply list_elem_of_In, in_map_iff. exists (t, s).
    split; [reflexivity | now apply list_elem_of_In]. }
  unfold tasks in Ht. apply list_elem_of_In, in_flat_map in Ht as (r & Hr & Ht).
  apply list_elem_of_In in Hr, Ht. apply elem_of_matched in Hr as (Hr & _).
  apply record_tasks_elem in Ht as (m & Hs & Hm & _ & ->).
  exists r, m. split; [exact Hr|].
  split; [exact (parse_lines_well_formed _ _ _ Ep Hr)|].
  split; [exact Hs|]. split; [|reflexivity]. now apply elem_of_list_to_set in Hm.
Qed.

(** X5. In a call of [download] that gets past its checks, every task
    is a call of [fetch_data] on the base address that may not
    overwrite, it is named after a parsed record of the manifest, and its
    directory is one of the five and has been made: no body is ever
    stored into a directory that the call did not make. *)
Theorem download_tasks_have_directories
    net schedule ets mts data_ids st records t s :
  request_ok ets mts = true ->
  parse_lines (records_txt net) = Ok records ->
  forallb (id_accepted (observed_ids records)) (default [] data_ids) = true ->
  let run := download net schedule ets mts data_ids st in
  (t, s) ∈ snd (fst run) ->
  s = Finished
  /\ data_dir t ∈ dirs (snd run)
  /\ data_dir t ∈ [DATA_CSV_DIR; DATA_HDF5_DIR; DEPTH_DIR; VIDEO_1080p_DIR;
                   VIDEO_576p_DIR]
  /\ base_url t = BASE_URL /\ overwrite_existing t = false
  /\ exists r, r ∈ records /\ record_name t = format_record r.
Proof.
  intros Hreq Ep Hids run Hin. unfold run in *.
  destruct (download_pool_elem _ _ _ _ _ _ _ _ _ Hreq Ep Hids Hin)
    as (r & m & Hr & _ & Hs & Hm & ->).
  rewrite (download_ok _ _ _ _ _ _ _ Hreq Ep Hids) in *. cbn [fst snd] in *.
  set (tasks := flat_map _ _) in *. set (st1 := State _ _ _) in *.
  split.
  { exact (proj1 (Forall_forall _ _) (gather_all_finished net schedule tasks st1)
             _ Hin). }
  destruct (loop_invariant_gather net schedule tasks st1) as (_ & Hd & _).
  split.
  { rewrite Hd. unfold st1. cbn [dirs artifact data_dir].
    apply elem_of_union. right. apply elem_of_list_to_set.
    now apply requested_dirs_elem. }
  split; [now apply directory_supported|].
  split; [reflexivity|]. split; [reflexivity|]. now exists r.
Qed.

Lemma download_tasks_have_directories_witness :
  let net := Remote ["emg_gestures-03-walk-2020-01-01-12-00-00-000"]
               (fun _ => "") in
  let t := artifact "depth"
             (Rec "emg_gestures" "03" "walk" "2020-01-01" "12-00-00-000") in
  let run := download net [] ["emg_gestures"] ["depth"] None (State ∅ ∅ []) in
  (t, Finished) ∈ snd (fst run)
  /\ data_dir t ∈ dirs (snd run)
  /\ exists r, record_name t = format_record r.
Proof.
  intros net t run.
  assert (Hin : (t, Finished) ∈ snd (fst run)) by (vm_compute; constructor).
  destruct (download_tasks_have_directories net [] ["emg_gestures"] ["depth"] None
              (State ∅ ∅ [])
              [Rec "emg_gestures" "03" "walk" "2020-01-01" "12-00-00-000"]
              t Finished eq_refl eq_refl eq_refl Hin)
    as (_ & Hd & _ & _ & _ & r & _ & Hr).
  split; [exact Hin|]. split; [exact Hd|]. now exists r.
Defined.

Lemma directory_path_inj m m' x x' :
  m ∈ supported_media_types -> m' ∈ supported_media_types ->
  directory m +:+ "/" +:+ x = directory m' +:+ "/" +:+ x' ->
  m = m' /\ x = x'.
Proof.
  intros Hm Hm' H.
  destruct (supported_media_type_cases m Hm) as [->|[->|[->|[->| ->]]]];
  destruct (supported_media_type_cases m' Hm') as [->|[->|[->|[->| ->]]]];
  simpl in H; try discriminate H; (split; [reflexivity | congruence]).
Qed.

Lemma artifact_path_inj m m' r r' :
  m ∈ supported_media_types -> m' ∈ supported_media_types ->
  well_formed r = true -> well_formed r' = true ->
  file_path_of (artifact m r) = file_path_of (artifact m' r') ->
  m = m' /\ r = r'.
Proof.
  intros Hm Hm' Hw Hw' H. unfold file_path_of, artifact in H.
  cbn [data_dir record_name file_type] in H.
  apply directory_path_inj in H as [<- H]; [|assumption|assumption].
  split; [reflexivity|].
  pose proof (parse_record_prefix r ("." +:+ extension m) Hw) as E.
  rewrite H, (parse_record_prefix r' _ Hw') in E. now injection E as ->.
Qed.

(** X6. Two tasks made for records of the grammar have the same local
    path only when they are the same task for the same record: distinct
    records and distinct media types never share a file, so that only the
    repeated lines of a manifest make two coroutines write to one path. *)
Theorem task_paths_are_distinct (mts mts' : gset string) r r' t t' :
  well_formed r = true -> well_formed r' = true ->
  t ∈ record_tasks mts r -> t' ∈ record_tasks mts' r' ->
  file_path_of t = file_path_of t' ->
  t = t' /\ r = r' /\ url_of t = url_of t'.
Proof.
  intros Hw Hw' Ht Ht' H.
  apply record_tasks_elem in Ht as (m & Hm & _ & _ & ->).
  apply record_tasks_elem in Ht' as (m' & Hm' & _ & _ & ->).
  destruct (artifact_path_inj m m' r r' Hm Hm' Hw Hw' H) as [<- <-]. auto.
Qed.

Lemma task_paths_are_distinct_witness :
  let r := Rec "emg_gestures" "03" "walk" "2020-01-01" "12-00-00-000" in
  let t := Task BASE_URL "Depth" "emg_gestures-03-walk-2020-01-01-12-00-00-000"
             "zip" false in
  t ∈ record_tasks {["data-csv"; "depth"]} r
  /\ t ∈ record_tasks {["depth"; "video-576p"]} r
  /\ url_of t = url_of t.
Proof.
  intros r t.
  assert (Ht : t ∈ record_tasks {["data-csv"; "depth"]} r)
    by (vm_compute; repeat constructor).
  assert (Ht' : t ∈ record_tasks {["depth"; "video-576p"]} r)
    by (vm_compute; repeat constructor).
  split; [exact Ht|]. split; [exact Ht'|].
  exact (proj2 (proj2 (task_paths_are_distinct {["data-csv"; "depth"]}
                         {["depth"; "video-576p"]} r r t t
                         eq_refl eq_refl Ht Ht' eq_refl))).
Defined.

(** ** What a call of download leaves behind *)

Lemma download_tasks_no_overwrite (mts : gset string) records :
  Forall (fun t => overwrite_existing t = false)
    (flat_map (record_tasks mts) records).
Proof.
  apply Forall_forall. intros t Ht.
  apply list_elem_of_In, in_flat_map in Ht as (r & _ & Ht).
  apply list_elem_of_In in Ht. now apply record_tasks_no_overwrite in Ht.
Qed.

(** X7. After a call of [download] that gets past its checks, whatever
    the order of the coroutines, the local file of every task exists: a
    file that was there holds what it held, and a file that was missing
    holds the body served at the address of its task. *)
Theorem download_stores_every_artifact
    net schedule ets mts data_ids st records t s :
  request_ok ets mts = true ->
  parse_lines (records_txt net) = Ok records ->
  forallb (id_accepted (observed_ids records)) (default [] data_ids) = true ->
  let run := download net schedule ets mts data_ids st in
  (t, s) ∈ snd (fst run) ->
  match files st !! file_path_of t with
  | Some d => files (snd run) !! file_path_of t = Some d
  | None => files (snd run) !! file_path_of t = Some (payload net (url_of t))
  end.
Proof.
  intros Hreq Ep Hids run Hin. unfold run in *.
  destruct (download_pool_elem _ _ _ _ _ _ _ _ _ Hreq Ep Hids Hin)
    as (r & m & Hr & Hw & Hs & Hm & ->).
  rewrite (download_ok _ _ _ _ _ _ _ Hreq Ep Hids) in *. cbn [fst snd] in *.
  set (tasks := flat_map _ _) in *. set (st1 := State _ _ _) in *.
  assert (Ht : artifact m r ∈ tasks).
  { rewrite <- (gather_tasks net schedule tasks st1).
    apply list_elem_of_In, in_map_iff. exists (artifact m r, s).
    split; [reflexivity | now apply list_elem_of_In]. }
  destruct (files st !! file_path_of (artifact m r)) as [d|] eqn:E.
  - destruct (keeps_existing_gather net schedule tasks st1
                (download_tasks_no_overwrite _ _)) as [Hk _].
    apply Hk. exact E.
  - destruct (loop_invariant_gather net schedule tasks st1)
      as (_ & _ & _ & Hf & _ & Hk).
    destruct (gather_pool_lookup net schedule tasks st1 _ Ht) as [j Hj].
    pose proof (Hf j _ Hj) as Hsome.
    destruct (Hk (file_path_of (artifact m r))) as [E'|(t' & Hin' & Hp & E')].
    + unfold st1 in E' at 2. cbn [files] in E'. rewrite E', E in Hsome.
      destruct Hsome as [x Hx]. discriminate Hx.
    + rewrite E'. f_equal. f_equal.
      unfold tasks in Hin'.
      apply list_elem_of_In, in_flat_map in Hin' as (r' & Hr' & Ht').
      apply list_elem_of_In in Hr', Ht'. apply elem_of_matched in Hr' as (Hr' & _).
      apply record_tasks_elem in Ht' as (m' & Hs' & _ & _ & ->).
      pose proof (parse_lines_well_formed _ _ _ Ep Hr') as Hw'.
      destruct (artifact_path_inj m' m r' r Hs' Hs Hw' Hw Hp) as [-> ->].
      reflexivity.
Qed.

Lemma download_stores_every_artifact_witness :
  let net := Remote ["emg_gestures-03-walk-2020-01-01-12-00-00-000"]
               (fun url => "body of " +:+ url) in
  let t := artifact "data-csv"
             (Rec "emg_gestures" "03" "walk" "2020-01-01" "12-00-00-000") in
  let run := download net [0] ["emg_gestures"] ["data-csv"] None (State ∅ ∅ []) in
  files (snd run) !! file_path_of t = Some ("body of " +:+ url_of t).
Proof.
  intros net t run.
  assert (Hin : (t, Finished) ∈ snd (fst run)) by (vm_compute; set_solver).
  exact (download_stores_every_artifact net [0] ["emg_gestures"] ["data-csv"] None
           (State ∅ ∅ [])
           [Rec "emg_gestures" "03" "walk" "2020-01-01" "12-00-00-000"]
           t Finished eq_refl eq_refl eq_refl Hin).
Defined.

(** X8. A second call of [download] with the same arguments on the
    same manifest, made after a first one has gone through, requests no
    artifact: its only request is that of the manifest, and it leaves
    the files and the directories as the first call left them, whatever
    the order of the coroutines in either call. *)
Theorem download_again_fetches_nothing
    net schedule schedule' ets mts data_ids st records :
  request_ok ets mts = true ->
  parse_lines (records_txt net) = Ok records ->
  forallb (id_accepted (observed_ids records)) (default [] data_ids) = true ->
  let first := download net schedule ets mts data_ids st in
  let second := download net schedule' ets mts data_ids (snd first) in
  fst (fst second) = Ok PyNone
  /\ List.filter is_get (log (snd second)) = List.filter is_get (log (snd first))
  /\ files (snd second) = files (snd first)
  /\ dirs (snd second) = dirs (snd first)
  /\ map fst (snd (fst second)) = map fst (snd (fst first)).
Proof.
  intros Hreq Ep Hids first second. unfold second, first.
  rewrite (download_ok net schedule _ _ _ st _ Hreq Ep Hids). cbn [fst snd].
  set (tasks := flat_map _ _). set (st1 := State _ _ _).
  set (st2 := snd (gather net schedule tasks st1)).
  rewrite (download_ok net schedule' _ _ _ st2 _ Hreq Ep Hids). cbn [fst snd].
  fold tasks. set (st3 := State _ _ _).
  destruct (loop_invariant_gather net schedule tasks st1)
    as (_ & Hd & _ & Hf & _ & _). fold st2 in Hd, Hf.
  assert (Hs : Forall (skips st3) tasks).
  { apply Forall_forall. intros t Ht. split.
    - exact (proj1 (Forall_forall _ _) (download_tasks_no_overwrite _ _) t Ht).
    - destruct (gather_pool_lookup net schedule tasks st1 _ Ht) as [j Hj].
      unfold st3. cbn [files]. exact (Hf j t Hj). }
  destruct (gather_settled net schedule' tasks st3 Hs) as [-> _].
  split; [reflexivity|]. unfold st3. cbn [log files dirs].
  split; [|split; [reflexivity|split]].
  - rewrite !List.filter_app. cbn [List.filter is_get].
    assert (Hm : forall l, List.filter is_get (map MakeDirs l) = []).
    { intros l. induction l as [|d l IH]; [reflexivity | exact IH]. }
    rewrite Hm. now rewrite !app_nil_r.
  - rewrite Hd. unfold st1. cbn [dirs]. set_solver.
  - now rewrite !gather_tasks.
Qed.

Lemma download_again_fetches_nothing_witness :
  let net := Remote ["emg_gestures-03-walk-2020-01-01-12-00-00-000";
                     "emg_force-07-sit-2020-02-02-08-30-00-500"]
               (fun _ => "body") in
  let first := download net [1; 0] ["emg_gestures"; "emg_force"]
                 ["depth"; "video-576p"] (Some ["07"; "03"]) (State ∅ ∅ []) in
  let second := download net [] ["emg_gestures"; "emg_force"]
                  ["depth"; "video-576p"] (Some ["07"; "03"]) (snd first) in
  List.filter is_get (log (snd second)) = List.filter is_get (log (snd first))
  /\ length (List.filter is_get (log (snd first))) = 3.
Proof.
  intros net first second. split; [|vm_compute; reflexivity].
  apply (download_again_fetches_nothing net [1; 0] [] ["emg_gestures"; "emg_force"]
           ["depth"; "video-576p"] (Some ["07"; "03"]) (State ∅ ∅ [])
           [Rec "emg_gestures" "03" "walk" "2020-01-01" "12-00-00-000";
            Rec "emg_force" "07" "sit" "2020-02-02" "08-30-00-500"]
           eq_refl eq_refl eq_refl).
Defined.

(** X9. Whatever its arguments, the manifest and the order of the
    coroutines, a call of [download] returns [None] or raises the warning
    of a line of the manifest; it only adds to the log; every file that
    was there holds afterwards what it held; no directory goes away, and
    a directory that appears is one of the five. *)
Theorem download_frame net schedule ets mts data_ids st :
  let run := download net schedule ets mts data_ids st in
  (fst (fst run) = Ok PyNone
   \/ exists line, line ∈ records_txt net
                   /\ fst (fst run) = Raise (Warning ["Wrong record"; line]))
  /\ (exists es, log (snd run) = log st ++ es)
  /\ (forall path d, files st !! path = Some d ->
                     files (snd run) !! path = Some d)
  /\ dirs st ⊆ dirs (snd run)
  /\ (forall d, d ∈ dirs (snd run) ->
                d ∈ dirs st
                \/ d ∈ [DATA_CSV_DIR; DATA_HDF5_DIR; DEPTH_DIR; VIDEO_1080p_DIR;
                        VIDEO_576p_DIR]).
Proof.
  intros run. unfold run.
  destruct (download_cases net schedule ets mts data_ids st)
    as [(out & es & -> & _ & Hout)|(records & Hreq & Ep & Hids)].
  - cbn [fst snd]. unfold say. cbn [log files dirs].
    split; [exact Hout|]. split; [now exists es|]. split; [auto|].
    split; [reflexivity | auto].
  - rewrite (download_ok _ _ _ _ _ _ _ Hreq Ep Hids). cbn [fst snd].
    set (tasks := flat_map _ _). set (st1 := State _ _ _).
    destruct (loop_invariant_gather net schedule tasks st1)
      as (_ & Hd & (es & Hl & _) & _).
    destruct (keeps_existing_gather net schedule tasks st1
                (download_tasks_no_overwrite _ _)) as [Hk _].
    split; [now left|]. split; [|split; [|split]].
    + eexists. rewrite Hl. unfold st1. cbn [log]. rewrite <- !app_assoc.
      reflexivity.
    + intros path d Hp. apply Hk. exact Hp.
    + rewrite Hd. unfold st1. cbn [dirs]. set_solver.
    + intros d. rewrite Hd. unfold st1. cbn [dirs].
      rewrite elem_of_union, elem_of_list_to_set. intros [H|H]; [now left|].
      right. unfold requested_dirs in H.
      apply list_elem_of_In, in_map_iff in H as (m & <- & Hm).
      apply filter_In in Hm as [Hm _]. apply list_elem_of_In in Hm.
      now apply directory_supported.
Qed.

Lemma requested_dirs_unsupported (mts : list string) :
  (forall m, m ∈ mts -> m ∉ supported_media_types) ->
  requested_dirs (list_to_set mts) = []
  /\ forall r, record_tasks (list_to_set mts) r = [].
Proof.
  intros H.
  assert (Hn : forall m, m ∈ supported_media_types ->
                         bool_decide (m ∈ (list_to_set mts : gset string)) = false).
  { intros m Hm. apply bool_decide_eq_false. rewrite elem_of_list_to_set.
    intros Hin. exact (H m Hin Hm). }
  assert (H1 := Hn "data-csv" ltac:(unfold supported_media_types; set_solver)).
  assert (H2 := Hn "data-hdf5" ltac:(unfold supported_media_types; set_solver)).
  assert (H3 := Hn "depth" ltac:(unfold supported_media_types; set_solver)).
  assert (H4 := Hn "video-1080p" ltac:(unfold supported_media_types; set_solver)).
  assert (H5 := Hn "video-576p" ltac:(unfold supported_media_types; set_solver)).
  split.
  - unfold requested_dirs, supported_media_types. cbn [List.filter].
    now rewrite H1, H2, H3, H4, H5.
  - intros r. unfold record_tasks. now rewrite H1, H2, H3, H4, H5.
Qed.

Lemma run_schedule_empty net sched st : run_schedule net sched ([], st) = ([], st).
Proof.
  unfold run_schedule. induction sched as [|i sched IH]; [reflexivity|].
  simpl. exact IH.
Qed.

(** X10. Media types that the check lets through without being one of
    the five names (a part of a name, the empty string) select nothing:
    the call of [download] reads the manifest and prints the IDs, and
    then makes no directory, creates no task and requests no artifact,
    yet ends as a call that went well. *)
Theorem accepted_unknown_media_types_fetch_nothing
    net schedule ets mts data_ids st records :
  request_ok ets mts = true ->
  parse_lines (records_txt net) = Ok records ->
  forallb (id_accepted (observed_ids records)) (default [] data_ids) = true ->
  (forall m, m ∈ mts -> m ∉ supported_media_types) ->
  download net schedule ets mts data_ids st
  = (Ok PyNone, [],
     say st [PrintSet (list_to_set ets); PrintSet (list_to_set mts);
             UrlOpen manifest_url;
             PrintList
               (sorted_list
                  (effective_ids (observed_ids records) (default [] data_ids)))]).
Proof.
  intros Hreq Ep Hids Hun.
  rewrite (download_ok _ _ _ _ _ _ _ Hreq Ep Hids).
  destruct (requested_dirs_unsupported mts Hun) as [Hd Ht].
  rewrite Hd.
  assert (E : flat_map (record_tasks (list_to_set mts))
                (matched ets
                   (effective_ids (observed_ids records) (default [] data_ids))
                   records) = []).
  { induction (matched _ _ _) as [|r l IH]; [reflexivity|].
    simpl. now rewrite Ht, IH. }
  rewrite E. unfold gather. cbn [length seq map app].
  rewrite run_schedule_empty. cbn [fst snd map list_to_set foldr].
  unfold say. cbn [dirs files log].
  replace (dirs st ∪ ∅) with (dirs st) by set_solver. reflexivity.
Qed.

Lemma accepted_unknown_media_types_fetch_nothing_witness :
  let net := Remote ["emg_gestures-03-walk-2020-01-01-12-00-00-000"]
               (fun _ => "") in
  let run := download net [] ["emg_gestures"] ["csv"; "video"; ""] None
               (State ∅ ∅ []) in
  snd (fst run) = [] /\ dirs (snd run) = ∅.
Proof.
  intros net run. unfold run.
  rewrite (accepted_unknown_media_types_fetch_nothing net [] ["emg_gestures"]
             ["csv"; "video"; ""] None (State ∅ ∅ [])
             [Rec "emg_gestures" "03" "walk" "2020-01-01" "12-00-00-000"]
             eq_refl eq_refl eq_refl).
  - split; reflexivity.
  - intros m Hm Hs. apply supported_media_type_cases in Hs.
    rewrite !elem_of_cons, elem_of_nil in Hm.
    destruct Hm as [->|[->|[->|[]]]]; destruct Hs as [H|[H|[H|[H|H]]]];
      discriminate H.
Defined.

(** X11. Whatever its arguments and the manifest, a call of
    [get_records_dataframe] leaves the directories and the files as they
    are, and apart from what it prints it does nothing at all or sends
    the one request of the manifest; it returns a table, the empty list,
    or raises the warning of a line of the manifest. *)
Theorem get_records_dataframe_frame net ets mts data_ids st :
  let run := get_records_dataframe net ets mts data_ids st in
  dirs (snd run) = dirs st /\ files (snd run) = files st
  /\ (exists es, log (snd run) = log st ++ es /\ quiet es)
  /\ ((exists rows, fst run = Ok (DataFrame rows)) \/ fst run = Ok (PyList [])
      \/ exists line, line ∈ records_txt net
                      /\ fst run = Raise (Warning ["Wrong record"; line])).
Proof.
  intros run. unfold run.
  destruct (dataframe_cases net ets mts data_ids st)
    as [(out & es & -> & Hq & Hout)|(records & _ & _ & _ & ->)];
    cbn [fst snd]; unfold say; cbn [dirs files log].
  - split; [reflexivity|]. split; [reflexivity|]. split; [eauto|].
    destruct Hout as [->|[->|H]]; eauto.
  - split; [reflexivity|]. split; [reflexivity|]. split; [|eauto].
    eexists. split; [reflexivity|]. now right.
Qed.

(** ** The checks of the request, one by one *)




(** ** The ID check *)

Lemma id_ok_chars id :
  id_ok id = true
  <-> exists a b tail,
        id = String a (String b tail)
        /\ Re.is_digit a = true /\ Re.is_digit b = true
        /\ (tail = "" \/ tail = String Re.newline "").
Proof.
  unfold id_ok. rewrite bool_decide_eq_true. unfold Re.rmatch, id_regexp.
  split.
  - destruct id as [|a [|b tail]]; simpl.
    + intros [x Hx]; discriminate Hx.
    + destruct (Re.is_digit a); intros [x Hx]; discriminate Hx.
    + destruct (Re.is_digit a) eqn:Ea; [|intros [x Hx]; discriminate Hx].
      destruct (Re.is_digit b) eqn:Eb; [|intros [x Hx]; discriminate Hx].
      intros H. exists a, b, tail.
      split; [reflexivity|]. split; [exact Ea|]. split; [exact Eb|].
      destruct tail as [|c [|c' tail]]; [now left | | destruct H as [x Hx]; discriminate Hx].
      destruct (Ascii.eqb_spec c Re.newline) as [->|Hc]; [now right|].
      destruct H as [x Hx]; discriminate Hx.
  - intros (a & b & tail & -> & Ea & Eb & [->| ->]); simpl; rewrite Ea, Eb; simpl; eauto.
Qed.

(** X13. The ID pattern ends at the end of the text or before a last
    line break, so that two digits followed by a line break pass it; no
    ID of the manifest holds a line break, so that such an ID is never
    refused as invalid and always as not available: the call ends with
    that message alone, without the usage text, and nothing is fetched. *)
Theorem id_with_line_break_not_available
    net schedule ets mts a b rest st records :
  request_ok ets mts = true ->
  parse_lines (records_txt net) = Ok records ->
  Re.is_digit a = true -> Re.is_digit b = true ->
  let id := String a (String b (String Re.newline "")) in
  id_ok id = true
  /\ (id ∉ observed_ids records)
  /\ download net schedule ets mts (Some (id :: rest)) st
     = (Ok PyNone, [],
        say st [PrintSet (list_to_set ets); PrintSet (list_to_set mts);
                UrlOpen manifest_url;
                Print ("ID " +:+ quoted id +:+ " not available")])
  /\ get_records_dataframe net ets mts (Some (id :: rest)) st
     = (Ok (PyList []),
        say st [UrlOpen manifest_url;
                Print ("ID " +:+ quoted id +:+ " not available")]).
Proof.
  intros Hreq Ep Ha Hb id.
  assert (Hok : id_ok id = true).
  { apply id_ok_chars. exists a, b, (String Re.newline ""). auto. }
  assert (Hobs : id ∉ observed_ids records).
  { intros Hin. pose proof (observed_ids_shape _ _ _ Ep Hin) as Hs.
    apply has_shape_digit in Hs as (c & s1 & E1 & _ & Hs).
    apply has_shape_digit in Hs as (c' & s2 & E2 & _ & Hs).
    apply has_shape_nil in Hs. subst s2 s1. discriminate E1. }
  assert (Hacc : id_accepted (observed_ids records) id = false).
  { unfold id_accepted. rewrite Hok. cbn [andb].
    now apply bool_decide_eq_false. }
  destruct (body_bad_id net ets mts st records [] id rest Hreq Ep eq_refl Hacc)
    as [Hd Hf].
  cbn [app] in Hd, Hf. unfold id_refusal in Hd, Hf. rewrite Hok in Hd, Hf.
  cbn [negb] in Hd, Hf.
  split; [exact Hok|]. split; [exact Hobs|].
  split; [now apply download_stopped | now apply dataframe_stopped].
Qed.

Lemma id_with_line_break_not_available_witness :
  let id := String "0" (String "3" (String Re.newline "")) in
  let net := Remote ["emg_gestures-03-walk-2020-01-01-12-00-00-000"] (fun _ => "") in
  let st := State ∅ ∅ [] in
  get_records_dataframe net ["emg_gestures"] ["data-csv"] (Some [id]) st
  = (Ok (PyList []),
     say st [UrlOpen manifest_url;
             Print ("ID " +:+ quoted id +:+ " not available")]).
Proof.
  intros id net st.
  destruct (id_with_line_break_not_available net [] ["emg_gestures"] ["data-csv"]
              "0"%char "3"%char [] st
              [Rec "emg_gestures" "03" "walk" "2020-01-01" "12-00-00-000"]
              eq_refl eq_refl eq_refl eq_refl) as (_ & _ & _ & Hf).
  exact Hf.
Defined.
